(** * csv_to_iceberg: a model of the CSV loader and its properties

    The program (csv_to_iceberg.py) reads a connection configuration,
    opens a Trino connection, asks the catalog for the columns of the
    target table, and executes one parameterised INSERT per row of a CSV
    file.  This file embeds the three functions of the script
    ([load_config], [get_table_columns], [insert_csv_to_iceberg]) and
    proves the properties stated about them.

    The libraries the script calls (the file system, the YAML and JSON
    parsers, pandas, the Trino client) are not part of the script: they
    appear here as the fields of a record [World], and every theorem
    holds for all worlds. *)

From Stdlib Require Import String Ascii ZArith List Lia Bool DecimalString.
From Stdlib Require Import Floats.SpecFloat.
From stdpp Require Import base option list strings gmap.

Local Open Scope string_scope.

(** ** Python strings

    Strings are sequences of characters in the ASCII range, which is
    where the script's own literals (['.'], ['date'], ['.yaml'], ...)
    live. *)

Module PyStr.

Definition nl : string := String (ascii_of_nat 10) EmptyString.

(** [c.lower()] for one character: [A]..[Z] go to [a]..[z]. *)
Definition lower_ascii (c : ascii) : ascii :=
  let n := nat_of_ascii c in
  if ((65 <=? n) && (n <=? 90))%nat then ascii_of_nat (n + 32) else c.

(** [s.lower()] *)
Fixpoint lower (s : string) : string :=
  match s with
  | EmptyString => EmptyString
  | String c s' => String (lower_ascii c) (lower s')
  end.

(** [s.startswith(p)] *)
Fixpoint startswith (p s : string) : bool :=
  match p, s with
  | EmptyString, _ => true
  | String a p', String b s' => Ascii.eqb a b && startswith p' s'
  | String _ _, EmptyString => false
  end.

(** [sub in s] *)
Fixpoint contains (sub s : string) : bool :=
  startswith sub s ||
  match s with
  | EmptyString => false
  | String _ s' => contains sub s'
  end.

(** [c in s] for a one-character needle. *)
Fixpoint has_char (c : ascii) (s : string) : bool :=
  match s with
  | EmptyString => false
  | String a s' => Ascii.eqb a c || has_char c s'
  end.

(** [s.split(c)]: cut at every occurrence of [c]; the result is never
    empty. *)
Fixpoint split (c : ascii) (s : string) : list string :=
  match s with
  | EmptyString => [EmptyString]
  | String a s' =>
      if Ascii.eqb a c then EmptyString :: split c s'
      else match split c s' with
           | [] => [String a EmptyString]
           | hd :: tl => String a hd :: tl
           end
  end.

(** [sep.join(parts)] *)
Fixpoint join (sep : string) (parts : list string) : string :=
  match parts with
  | [] => EmptyString
  | [p] => p
  | p :: rest => p +:+ sep +:+ join sep rest
  end.

(** [s.rfind(c)]: the highest index of [c] in [s], or [-1]. *)
Fixpoint rfind_from (c : ascii) (s : string) (i last : Z) : Z :=
  match s with
  | EmptyString => last
  | String a s' =>
      rfind_from c s' (i + 1) (if Ascii.eqb a c then i else last)
  end.

Definition rfind (c : ascii) (s : string) : Z := rfind_from c s 0 (-1).

(** [s[:i]] and [s[i:]] for [0 <= i]. *)
Definition slice_to (s : string) (i : Z) : string :=
  String.substring 0 (Z.to_nat i) s.

Definition slice_from (s : string) (i : Z) : string :=
  String.substring (Z.to_nat i) (String.length s - Z.to_nat i) s.

(** [str(n)] for a natural number. *)
Definition of_nat (n : nat) : string :=
  NilZero.string_of_uint (Nat.to_uint n).

End PyStr.

(** ** os.path.splitext (the POSIX flavour: separator ['/'])

    The loop of the library function skips the dots that start the file
    name, so that [".bashrc"] has no extension. *)

Module OsPath.

Fixpoint splitext_scan (p : string) (filenameIndex dotIndex : Z)
    (fuel : nat) : option (string * string) :=
  match fuel with
  | O => None
  | S fuel' =>
      if (filenameIndex <? dotIndex)%Z then
        match String.get (Z.to_nat filenameIndex) p with
        | Some "."%char =>
            splitext_scan p (filenameIndex + 1) dotIndex fuel'
        | _ => Some (PyStr.slice_to p dotIndex, PyStr.slice_from p dotIndex)
        end
      else None
  end.

Definition splitext (p : string) : string * string :=
  let sepIndex := PyStr.rfind "/" p in
  let dotIndex := PyStr.rfind "." p in
  if (dotIndex >? sepIndex)%Z then
    match splitext_scan p (sepIndex + 1) dotIndex (String.length p) with
    | Some r => r
    | None => (p, EmptyString)
    end
  else (p, EmptyString).

End OsPath.

(** ** Python values *)

(** [datetime.date] *)
Record date := { year : Z; month : Z; day : Z }.

(** The objects that flow through the script: configuration values, the
    cells of the data frame and the parameters bound to a statement.  A
    [dict] with string keys is a [gmap].  [PNaT] is pandas' [NaT], the
    missing date (itself an instance of [datetime]). *)
#[warnings="-register-all"]
Inductive pyobj :=
| PNone
| PBool (b : bool)
| PInt (z : Z)
| PFloat (f : spec_float)
| PStr (s : string)
| PDate (d : date)
| PNaT
| PList (l : list pyobj)
| PDict (m : gmap string pyobj).

(** [float('nan')], the marker pandas puts in an empty cell. *)
Definition nan : pyobj := PFloat S754_nan.

(** A cell of the result of [.dt.date]: a [datetime.date], or [NaT] where
    the cell held no date. *)
Definition date_cell (d : option date) : pyobj :=
  match d with
  | Some d => PDate d
  | None => PNaT
  end.

(** A value of a date type: a date or the missing date. *)
Definition date_typed (v : pyobj) : Prop :=
  match v with
  | PDate _ | PNaT => True
  | _ => False
  end.

(** ** Exceptions and results *)

Inductive exn :=
| FileNotFoundError (msg : string)
| ValueError (msg : string)
| AttributeError (msg : string)
| KeyError (key : nat)
| IndexError (msg : string)
| LibraryError (msg : string).

Inductive result (A : Type) :=
| Ok (a : A)
| Raise (e : exn).

Arguments Ok {A} a.
Arguments Raise {A} e.

(** ** pandas data frames

    A frame is a sequence of labelled columns over a common index of
    [df_nrows] rows.  [read_csv] labels the columns with the header
    names; the script replaces the labels by positions before it looks
    any column up. *)

Inductive label :=
| LName (s : string)
| LPos (i : nat).

#[global] Instance label_eq_dec : EqDecision label.
Proof. solve_decision. Defined.

(** A [Series]: labelled values (a column keeps only its values). *)
Abbreviation Series := (list (label * pyobj)).

Record DataFrame := {
  df_nrows : nat;
  df_columns : list (label * list pyobj)
}.


(** ** What the script does to the outside, and what the outside answers *)

(** The keyword arguments of [trino.dbapi.connect]. *)
Record conn_params := {
  cp_host : pyobj;
  cp_port : pyobj;
  cp_user : pyobj;
  cp_catalog : pyobj;
  cp_schema : pyobj
}.

(** The calls made on the Trino client. [Execute q None] is
    [cursor.execute(q)], [Execute q (Some vs)] is
    [cursor.execute(q, tuple(vs))]. *)
Inductive db_call :=
| Connect (p : conn_params)
| Cursor
| Execute (query : string) (params : option (list pyobj))
| FetchAll
| Commit
| CursorClose
| ConnClose.

(** The lines the script prints. *)
Inductive message :=
| UsingTableColumns (table_columns : list string)
| TruncationWarning (n_table n_csv : nat)
| InsertedSuccessfully (csv_path table_name : string)
| InsertedCount (rows_inserted n_columns : nat).

(** The text of a message, for the ones that interpolate only strings
    and numbers. *)
Definition message_text (m : message) : option string :=
  match m with
  | UsingTableColumns _ => None
  | TruncationWarning n_table n_csv =>
      Some ("Warning: Table has " +:+ PyStr.of_nat n_table +:+
            " columns but CSV only has " +:+ PyStr.of_nat n_csv +:+ " columns")
  | InsertedSuccessfully csv_path table_name =>
      Some ("Data from " +:+ csv_path +:+ " inserted into " +:+ table_name +:+
            " successfully!")
  | InsertedCount rows_inserted n_columns =>
      Some ("Inserted " +:+ PyStr.of_nat rows_inserted +:+ " rows with " +:+
            PyStr.of_nat n_columns +:+ " columns")
  end.

Inductive event :=
| EOpen (path : string)
| EReadCsv (path : string)
| ECall (c : db_call)
| EPrint (m : message).

(** The libraries and services behind the script.  A library call
    answers [inr] a value or [inl] the description of the exception it
    raises.  The database is a state machine of its own: [db_step]
    answers a call in a state with an exception or with the fetched rows
    (looked at for [FetchAll] only) and the next state.  The rows of the
    one query the script fetches hold column names, so a fetched cell is
    a string.

    [to_datetime_date] is [pd.to_datetime(column).dt.date]: it raises, or
    answers one date per cell, [None] standing for the [NaT] it leaves
    where a cell is blank.

    [values_cast df v] is the cell [v] of [df] as it stands in
    [df.values], the array [iterrows] cuts its rows from: every cell is
    converted to the common dtype of the frame's columns, so that an
    integer beside a column of floats comes out as a float, while a frame
    with a column of strings or dates keeps its cells as they are. *)
Record World := {
  path_exists : string -> bool;
  open_read : string -> string + string;
  yaml_safe_load : string -> string + pyobj;
  json_load : string -> string + pyobj;
  read_csv : string -> string + DataFrame;
  to_datetime_date : list pyobj -> string + list (option date);
  values_cast : DataFrame -> pyobj -> pyobj;
  DB : Type;
  db_step : DB -> db_call -> string + (list (list string) * DB)
}.

(** The exception of a library reaches the script as a [LibraryError]. *)
Definition of_lib {A} (r : string + A) : result A :=
  match r with
  | inl what => Raise (LibraryError what)
  | inr a => Ok a
  end.

(** ** Frame operations *)

Module Pandas.

(** [len(df.columns)] *)
Definition ncols (df : DataFrame) : nat := length (df_columns df).

(** [df.columns = range(len(df.columns))] *)
Definition set_columns_range (df : DataFrame) : DataFrame :=
  {| df_nrows := df_nrows df;
     df_columns := imap (fun i c => (LPos i, snd c)) (df_columns df) |}.

Fixpoint lookup_label {A} (l : label) (cols : list (label * A)) : option A :=
  match cols with
  | [] => None
  | (l', a) :: rest => if decide (l' = l) then Some a else lookup_label l rest
  end.

(** [df[i]] for an integer [i]: the column labelled [i]. *)
Definition getitem (df : DataFrame) (i : nat) : result (list pyobj) :=
  match lookup_label (LPos i) (df_columns df) with
  | Some s => Ok s
  | None => Raise (KeyError i)
  end.

Fixpoint replace_label {A} (l : label) (a : A) (cols : list (label * A))
    : list (label * A) :=
  match cols with
  | [] => [(l, a)]
  | (l', a') :: rest =>
      if decide (l' = l) then (l', a) :: rest
      else (l', a') :: replace_label l a rest
  end.

(** [df[i] = s]: replaces the column labelled [i], or adds it as the
    last column when the frame has none. *)
Definition setitem (df : DataFrame) (i : nat) (s : list pyobj) : DataFrame :=
  {| df_nrows := df_nrows df;
     df_columns := replace_label (LPos i) s (df_columns df) |}.

(** The row at index [k], as [iterrows] cuts it from [df.values]: one
    value per column, under the column's label, converted to the common
    dtype of the frame. *)
Definition row_at (W : World) (df : DataFrame) (k : nat) : Series :=
  map (fun c => (fst c, values_cast W df (nth k (snd c) nan))) (df_columns df).

(** [df.iterrows()], the rows in index order. *)
Definition iterrows (W : World) (df : DataFrame) : list Series :=
  map (row_at W df) (seq 0 (df_nrows df)).

(** [row[i]] for an integer [i] on a row. *)
Definition row_getitem (row : Series) (i : nat) : result pyobj :=
  match lookup_label (LPos i) row with
  | Some v => Ok v
  | None => Raise (KeyError i)
  end.

End Pandas.

(** ** The monad of the script

    A computation starts in a database state and ends with a value or an
    exception, the next database state, and the events it caused, in the
    order they happened.  Events stay in the log when a later step
    raises. *)

Section Script.

Context (W : World).

Definition M (A : Type) : Type := DB W -> result A * DB W * list event.

Definition ret {A} (a : A) : M A := fun s => (Ok a, s, []).

Definition raise {A} (e : exn) : M A := fun s => (Raise e, s, []).

Definition bind {A B} (m : M A) (k : A -> M B) : M B :=
  fun s =>
    match m s with
    | (Ok a, s1, log1) =>
        match k a s1 with
        | (r, s2, log2) => (r, s2, (log1 ++ log2)%list)
        end
    | (Raise e, s1, log1) => (Raise e, s1, log1)
    end.

Definition lift {A} (r : result A) : M A := fun s => (r, s, []).

Definition emit (e : event) : M unit := fun s => (Ok tt, s, [e]).

(** A call on the Trino client; the database is left as it was when the
    call raises. *)
Definition call (c : db_call) : M (list (list string)) :=
  fun s =>
    match db_step W s c with
    | inr (rows, s') => (Ok rows, s', [ECall c])
    | inl what => (Raise (LibraryError what), s, [ECall c])
    end.

(** [try: body except: handler], with a bare [except]. *)
Definition try_except {A} (body handler : M A) : M A :=
  fun s =>
    match body s with
    | (Ok a, s1, log1) => (Ok a, s1, log1)
    | (Raise _, s1, log1) =>
        match handler s1 with
        | (r, s2, log2) => (r, s2, (log1 ++ log2)%list)
        end
    end.

Local Notation "x <- m ;; k" := (bind m (fun x => k))
  (at level 100, m at next level, right associativity).
Local Notation "m ;;; k" := (bind m (fun _ => k))
  (at level 100, right associativity).

(** *** load_config (lines 9-23) *)

Definition config_not_found (config_path : string) : exn :=
  FileNotFoundError ("Config file not found: " +:+ config_path).

Definition unsupported_format (file_ext : string) : exn :=
  ValueError ("Unsupported config file format: " +:+ file_ext +:+
              ". Use .yaml, .yml, or .json").

Definition file_ext_of (config_path : string) : string :=
  PyStr.lower (snd (OsPath.splitext config_path)).

Definition load_config (config_path : string) : M pyobj :=
  if negb (path_exists W config_path) then
    raise (config_not_found config_path)
  else
    let file_ext := file_ext_of config_path in
    if String.eqb file_ext ".yaml" || String.eqb file_ext ".yml" then
      emit (EOpen config_path) ;;;
      file <- lift (of_lib (open_read W config_path)) ;;
      lift (of_lib (yaml_safe_load W file))
    else if String.eqb file_ext ".json" then
      emit (EOpen config_path) ;;;
      file <- lift (of_lib (open_read W config_path)) ;;
      lift (of_lib (json_load W file))
    else
      raise (unsupported_format file_ext).

(** *** get_table_columns (lines 25-50) *)

(** [a, b = parts] *)
Definition unpack2 (parts : list string) : result (string * string) :=
  match parts with
  | [a; b] => Ok (a, b)
  | _ :: _ :: _ :: _ =>
      Raise (ValueError "too many values to unpack (expected 2)")
  | _ =>
      Raise (ValueError ("not enough values to unpack (expected 2, got " +:+
                         PyStr.of_nat (length parts) +:+ ")"))
  end.

(** Lines 28-33: the schema (if any) and the table. *)
Definition parse_table_name (table_name : string)
    : result (option string * string) :=
  if PyStr.has_char "." table_name then
    match unpack2 (PyStr.split "." table_name) with
    | Ok (schema, table) => Ok (Some schema, table)
    | Raise e => Raise e
    end
  else Ok (None, table_name).

(** Line 36: [None] and the empty string are both false. *)
Definition schema_condition (schema : option string) : string :=
  match schema with
  | Some (String c s) => "AND table_schema = '" +:+ String c s +:+ "'"
  | _ => ""
  end.

(** Lines 37-42. *)
Definition metadata_query (schema : option string) (table : string) : string :=
  PyStr.nl +:+
  "    SELECT column_name " +:+ PyStr.nl +:+
  "    FROM information_schema.columns " +:+ PyStr.nl +:+
  "    WHERE table_name = '" +:+ table +:+ "' " +:+
    schema_condition schema +:+ PyStr.nl +:+
  "    ORDER BY ordinal_position" +:+ PyStr.nl +:+
  "    ".

Definition table_not_found (table_name : string) : exn :=
  ValueError ("Table " +:+ table_name +:+ " not found or has no columns").

(** [row[0]] on a fetched row. *)
Definition first_cell (row : list string) : result string :=
  match row with
  | c :: _ => Ok c
  | [] => Raise (IndexError "list index out of range")
  end.

(** A list comprehension whose body may raise. *)
Fixpoint map_result {A B} (f : A -> result B) (l : list A) : result (list B) :=
  match l with
  | [] => Ok []
  | a :: l' =>
      match f a with
      | Raise e => Raise e
      | Ok b =>
          match map_result f l' with
          | Raise e => Raise e
          | Ok bs => Ok (b :: bs)
          end
      end
  end.

Definition get_table_columns (table_name : string) : M (list string) :=
  parsed <- lift (parse_table_name table_name) ;;
  let query := metadata_query (fst parsed) (snd parsed) in
  call (Execute query None) ;;;
  rows <- call FetchAll ;;
  columns <- lift (map_result first_cell rows) ;;
  match columns with
  | [] => raise (table_not_found table_name)
  | _ :: _ => ret columns
  end.

(** *** insert_csv_to_iceberg (lines 52-115) *)

Definition type_name (o : pyobj) : string :=
  match o with
  | PNone => "NoneType"
  | PBool _ => "bool"
  | PInt _ => "int"
  | PFloat _ => "float"
  | PStr _ => "str"
  | PDate _ => "datetime.date"
  | PNaT => "NaTType"
  | PList _ => "list"
  | PDict _ => "dict"
  end.

(** [o.get(key, dflt)]: only a dict has the method. *)
Definition dict_get (o : pyobj) (key : string) (dflt : pyobj) : result pyobj :=
  match o with
  | PDict m => Ok (default dflt (m !! key))
  | _ => Raise (AttributeError ("'" +:+ type_name o +:+
                                "' object has no attribute 'get'"))
  end.

(** Lines 63-67: the keyword arguments, read left to right. *)
Definition connection_params (trino_config : pyobj) : result conn_params :=
  match dict_get trino_config "host" (PStr "localhost") with
  | Raise e => Raise e
  | Ok host =>
  match dict_get trino_config "port" (PInt 8080) with
  | Raise e => Raise e
  | Ok port =>
  match dict_get trino_config "user" (PStr "trino") with
  | Raise e => Raise e
  | Ok user =>
  match dict_get trino_config "catalog" (PStr "iceberg") with
  | Raise e => Raise e
  | Ok catalog =>
  match dict_get trino_config "schema" (PStr "default") with
  | Raise e => Raise e
  | Ok schema =>
      Ok {| cp_host := host; cp_port := port; cp_user := user;
            cp_catalog := catalog; cp_schema := schema |}
  end end end end end.

(** Lines 75-78: no more columns than the CSV has. *)
Definition bind_columns (table_columns : list string) (df : DataFrame)
    : M (list string) :=
  if (Pandas.ncols df <? length table_columns)%nat then
    emit (EPrint (TruncationWarning (length table_columns) (Pandas.ncols df))) ;;;
    ret (take (Pandas.ncols df) table_columns)
  else ret table_columns.

(** Line 85, first half: ['date' in col_name.lower()]. *)
Definition is_date_name (col_name : string) : bool :=
  PyStr.contains "date" (PyStr.lower col_name).

(** Line 87: [df[col_idx] = pd.to_datetime(df[col_idx]).dt.date]. *)
Definition convert_column (df : DataFrame) (col_idx : nat) : M DataFrame :=
  column <- lift (Pandas.getitem df col_idx) ;;
  dates <- lift (of_lib (to_datetime_date W column)) ;;
  ret (Pandas.setitem df col_idx (map date_cell dates)).

(** Lines 84-90: the loop over [enumerate(table_columns)], from index
    [col_idx] on. *)
Fixpoint convert_date_columns (col_idx : nat) (table_columns : list string)
    (df : DataFrame) : M DataFrame :=
  match table_columns with
  | [] => ret df
  | col_name :: rest =>
      df' <- (if is_date_name col_name && (col_idx <? Pandas.ncols df)%nat
              then try_except (convert_column df col_idx) (ret df)
              else ret df) ;;
      convert_date_columns (S col_idx) rest df'
  end.

Definition dquote : string := String (ascii_of_nat 34) EmptyString.

(** Line 93. *)
Definition table_column_str (table_columns : list string) : string :=
  PyStr.join ", " (map (fun col => dquote +:+ col +:+ dquote) table_columns).

(** Line 94. *)
Definition placeholder_str (table_columns : list string) : string :=
  PyStr.join ", " (map (fun _ => "?") table_columns).

(** Lines 102-105. *)
Definition insert_query (table_name : string) (table_columns : list string)
    : string :=
  PyStr.nl +:+
  "        INSERT INTO " +:+ table_name +:+ " (" +:+
    table_column_str table_columns +:+ ")" +:+ PyStr.nl +:+
  "        VALUES (" +:+ placeholder_str table_columns +:+ ")" +:+ PyStr.nl +:+
  "        ".

(** Line 100: [[row[i] if i < len(row) else None for i in range(n)]]. *)
Definition row_values (row : Series) (n : nat) : result (list pyobj) :=
  map_result
    (fun i => if (i <? length row)%nat then Pandas.row_getitem row i
              else Ok PNone)
    (seq 0 n).

(** Lines 97-107: the loop over the rows; returns [rows_inserted]. *)
Fixpoint insert_rows (table_name : string) (table_columns : list string)
    (rows : list Series) (rows_inserted : nat) : M nat :=
  match rows with
  | [] => ret rows_inserted
  | row :: rest =>
      values <- lift (row_values row (length table_columns)) ;;
      call (Execute (insert_query table_name table_columns) (Some values)) ;;;
      insert_rows table_name table_columns rest (S rows_inserted)
  end.

(** Lines 109-115. *)
Definition commit_and_report (csv_path table_name : string)
    (rows_inserted n_columns : nat) : M unit :=
  call Commit ;;;
  call CursorClose ;;;
  call ConnClose ;;;
  emit (EPrint (InsertedSuccessfully csv_path table_name)) ;;;
  emit (EPrint (InsertedCount rows_inserted n_columns)).

(** Lines 75-115: the run from the discovered columns on. *)
Definition load_rows (csv_path table_name : string)
    (table_columns : list string) (df : DataFrame) : M unit :=
  table_columns <- bind_columns table_columns df ;;
  let df := Pandas.set_columns_range df in
  df <- convert_date_columns 0 table_columns df ;;
  rows_inserted <- insert_rows table_name table_columns (Pandas.iterrows W df) 0 ;;
  commit_and_report csv_path table_name rows_inserted (length table_columns).

(** Lines 62-115: the run once the configuration and the CSV are read. *)
Definition open_and_load (csv_path table_name : string)
    (params : conn_params) (df : DataFrame) : M unit :=
  call (Connect params) ;;;
  call Cursor ;;;
  table_columns <- get_table_columns table_name ;;
  emit (EPrint (UsingTableColumns table_columns)) ;;;
  load_rows csv_path table_name table_columns df.

Definition insert_csv_to_iceberg (csv_path table_name config_path : string)
    : M unit :=
  config <- load_config config_path ;;
  trino_config <- lift (dict_get config "trino" (PDict ∅)) ;;
  emit (EReadCsv csv_path) ;;;
  df <- lift (of_lib (read_csv W csv_path)) ;;
  params <- lift (connection_params trino_config) ;;
  open_and_load csv_path table_name params df.

End Script.

(** ** A small world to run the script in

    Files are given by name and content; the two parsers read one
    document each; dates are read in the form [YYYY-MM-DD]; the database
    keeps the rows it was given and answers every fetch with the rows of
    [catalog]. *)

Module Sample.

Definition digit (c : ascii) : option Z :=
  let n := nat_of_ascii c in
  if ((48 <=? n) && (n <=? 57))%nat then Some (Z.of_nat (n - 48)) else None.

Definition number (cs : list ascii) : option Z :=
  foldl (fun acc c =>
           match acc, digit c with
           | Some a, Some d => Some (10 * a + d)%Z
           | _, _ => None
           end) (Some 0%Z) cs.

Definition iso_date (s : string) : option date :=
  match list_ascii_of_string s with
  | [y1; y2; y3; y4; "-"%char; m1; m2; "-"%char; d1; d2] =>
      match number [y1; y2; y3; y4], number [m1; m2], number [d1; d2] with
      | Some y, Some m, Some d => Some {| year := y; month := m; day := d |}
      | _, _, _ => None
      end
  | _ => None
  end.

Fixpoint to_dates (column : list pyobj) : string + list (option date) :=
  match column with
  | [] => inr []
  | PStr s :: rest =>
      match iso_date s, to_dates rest with
      | Some d, inr ds => inr (Some d :: ds)
      | None, _ => inl "DateParseError"
      | _, inl what => inl what
      end
  | PFloat S754_nan :: rest =>
      match to_dates rest with
      | inr ds => inr (None :: ds)
      | inl what => inl what
      end
  | _ :: _ => inl "TypeError"
  end.

(** The common dtype of a frame, for the frames used here: when every
    cell is a number and one of them is a float, integers become floats;
    otherwise the cells stay as they are. *)
Definition is_number (v : pyobj) : bool :=
  match v with
  | PInt _ | PFloat _ => true
  | _ => false
  end.

Definition is_float (v : pyobj) : bool :=
  match v with
  | PFloat _ => true
  | _ => false
  end.

Definition to_float (v : pyobj) : pyobj :=
  match v with
  | PInt z => PFloat (binary_normalize 53 1024 z 0 false)
  | _ => v
  end.

Definition common_dtype (df : DataFrame) (v : pyobj) : pyobj :=
  let cells := concat (map snd (df_columns df)) in
  if forallb is_number cells && existsb is_float cells then to_float v else v.

Fixpoint file_content (files : list (string * string)) (path : string)
    : option string :=
  match files with
  | [] => None
  | (p, content) :: rest =>
      if String.eqb p path then Some content else file_content rest path
  end.

Definition parse_only (document : string) (value : pyobj) (content : string)
    : string + pyobj :=
  if String.eqb content document then inr value else inl "ParseError".

Definition yaml_document : string :=
  "trino: {host: h, port: 1, user: u, catalog: c, schema: s}".

Definition quoted (s : string) : string := dquote +:+ s +:+ dquote.

Definition json_document : string :=
  "{" +:+ quoted "trino" +:+ ": {" +:+
    quoted "host" +:+ ": " +:+ quoted "h" +:+ ", " +:+
    quoted "port" +:+ ": 1, " +:+
    quoted "user" +:+ ": " +:+ quoted "u" +:+ ", " +:+
    quoted "catalog" +:+ ": " +:+ quoted "c" +:+ ", " +:+
    quoted "schema" +:+ ": " +:+ quoted "s" +:+ "}}".

Definition trino_section : gmap string pyobj :=
  <["host" := PStr "h"]> (<["port" := PInt 1]> (<["user" := PStr "u"]>
    (<["catalog" := PStr "c"]> (<["schema" := PStr "s"]> ∅)))).

Definition config : pyobj := PDict (<["trino" := PDict trino_section]> ∅).

Definition files : list (string * string) :=
  [("trino_config.yaml", yaml_document); ("conf/Trino.JSON", json_document);
   ("notes.txt", "host: h"); ("empty.yml", "{}")].

Definition world (df : DataFrame) (catalog : list (list string)) : World :=
  {| path_exists := fun p => bool_decide (is_Some (file_content files p));
     open_read := fun p =>
       match file_content files p with
       | Some content => inr content
       | None => inl "OSError"
       end;
     yaml_safe_load := fun content =>
       if String.eqb content "{}" then inr (PDict ∅)
       else parse_only yaml_document config content;
     json_load := parse_only json_document config;
     read_csv := fun p =>
       if String.eqb p "purchases.csv" then inr df else inl "FileNotFoundError";
     to_datetime_date := to_dates;
     values_cast := common_dtype;
     DB := list (list pyobj);
     db_step := fun s c =>
       match c with
       | FetchAll => inr (catalog, s)
       | Execute _ (Some values) => inr ([], s ++ [values])%list
       | _ => inr ([], s)
       end |}.

(** The same world with a database that takes [limit] INSERTs and raises
    on every later one. *)
Definition strict_world (df : DataFrame) (catalog : list (list string))
    (limit : nat) : World :=
  {| path_exists := path_exists (world df catalog);
     open_read := open_read (world df catalog);
     yaml_safe_load := yaml_safe_load (world df catalog);
     json_load := json_load (world df catalog);
     read_csv := read_csv (world df catalog);
     to_datetime_date := to_dates;
     values_cast := common_dtype;
     DB := list (list pyobj);
     db_step := fun s c =>
       match c with
       | FetchAll => inr (catalog, s)
       | Execute _ (Some values) =>
           if (length s <? limit)%nat then inr ([], s ++ [values])%list
           else inl "TrinoUserError"
       | _ => inr ([], s)
       end |}.

(** A world whose configuration file, whatever its name, loads to
    [config]. *)
Definition config_world (config : pyobj) (df : DataFrame)
    (catalog : list (list string)) : World :=
  {| path_exists := fun _ => true;
     open_read := fun _ => inr EmptyString;
     yaml_safe_load := fun _ => inr config;
     json_load := fun _ => inr config;
     read_csv := read_csv (world df catalog);
     to_datetime_date := to_dates;
     values_cast := common_dtype;
     DB := list (list pyobj);
     db_step := db_step (world df catalog) |}.



(** Trades with a blank date in the second row. *)
Definition blank_date : DataFrame :=
  {| df_nrows := 2;
     df_columns := [(LName "when", [PStr "2023-01-15"; nan]);
                    (LName "qty", [PInt 5; PInt 7])] |}.

Definition three_rows : DataFrame :=
  {| df_nrows := 3;
     df_columns := [(LName "x", [PInt 1; PInt 2; PInt 3]);
                    (LName "y", [PStr "p"; PStr "q"; PStr "r"])] |}.

Definition trades : DataFrame :=
  {| df_nrows := 2;
     df_columns := [(LName "when", [PStr "2023-01-15"; PStr "2024-02-29"]);
                    (LName "settled", [PStr "2023-01-16"; PStr "not-a-date"]);
                    (LName "qty", [PInt 5; PInt 7])] |}.

End Sample.

(** ** Conditions on frames and on the database *)

(** The labels of a row or of a frame are the positions [from],
    [from + 1], ..., as they are once line 81 has run. *)
Definition positional {A} (from : nat) (cols : list (label * A)) : Prop :=
  ∀ j c, cols !! j = Some c → c.1 = LPos (from + j).

(** What line 100 binds at position [i] of a positional row: the row's
    cell, or [None] past its end. *)
Definition bound_cell (row : Series) (i : nat) : pyobj :=
  match row !! i with
  | Some c => c.2
  | None => PNone
  end.

(** What lines 85-90 leave in a column under the table column [name]
    (if there is one at that position): the dates read from it when the
    name asks for dates and the conversion succeeds, the column itself
    otherwise. *)
Definition coerced (W : World) (name : option string) (column : list pyobj)
    : list pyobj :=
  match name with
  | Some col_name =>
      if is_date_name col_name then
        match to_datetime_date W column with
        | inr dates => map date_cell dates
        | inl _ => column
        end
      else column
  | None => column
  end.

(** The database answers the call [c] in every state. *)
Definition accepts (W : World) (c : db_call) : Prop :=
  ∀ s, ∃ rows s', db_step W s c = inr (rows, s').

(** Once [query] has run, a fetch yields [rows]. *)
Definition answers (W : World) (query : string) (rows : list (list string))
    : Prop :=
  ∀ s ignored s1,
    db_step W s (Execute query None) = inr (ignored, s1) →
    ∃ s2, db_step W s1 FetchAll = inr (rows, s2).

(** ** Reading the event log *)

(** The event of line 106 for one row: the INSERT of the run with the
    values of the row. *)
Definition insert_event (table_name : string) (table_columns : list string)
    (row : Series) : event :=
  ECall (Execute (insert_query table_name table_columns)
           (Some (map (bound_cell row) (seq 0 (length table_columns))))).

(** The statements sent with bound values, counted. *)
Fixpoint inserts_in (log : list event) : nat :=
  match log with
  | [] => 0
  | ECall (Execute _ (Some _)) :: rest => S (inserts_in rest)
  | _ :: rest => inserts_in rest
  end.

(** The five events of lines 110-115, in order. *)
Definition closing_events (csv_path table_name : string)
    (rows_inserted n_columns : nat) : list event :=
  [ECall Commit; ECall CursorClose; ECall ConnClose;
   EPrint (InsertedSuccessfully csv_path table_name);
   EPrint (InsertedCount rows_inserted n_columns)].

(** ** The specification's reading of two of the steps *)

Module Spec.

(** What a configuration file of each format denotes: the value its
    parser reads from its content. *)
Definition yaml_denotes (W : World) (path : string) (d : pyobj) : Prop :=
  ∃ content, open_read W path = inr content ∧ yaml_safe_load W content = inr d.

Definition json_denotes (W : World) (path : string) (d : pyobj) : Prop :=
  ∃ content, open_read W path = inr content ∧ json_load W content = inr d.

(** [s.partition(c)]: the text before and after the first [c]. *)
Fixpoint partition_first (c : ascii) (s : string) : option (string * string) :=
  match s with
  | EmptyString => None
  | String a s' =>
      if Ascii.eqb a c then Some (EmptyString, s')
      else match partition_first c s' with
           | Some (before, after) => Some (String a before, after)
           | None => None
           end
  end.

(** A table name cut at its first ['.']: the schema before it and the
    table after it; no schema when there is no ['.']. *)
Definition split_on_first_dot (table_name : string) : option string * string :=
  match partition_first "." table_name with
  | Some (schema, table) => (Some schema, table)
  | None => (None, table_name)
  end.

(** [s.count(c)] *)
Fixpoint count_char (c : ascii) (s : string) : nat :=
  match s with
  | EmptyString => 0
  | String a s' => (if Ascii.eqb a c then 1 else 0) + count_char c s'
  end.

End Spec.

(** * Properties *)

Local Close Scope string_scope.

(** ** The configuration loader *)

Ltac run_steps :=
  unfold bind, emit, lift, raise, ret, call, try_except; simpl.

(** Membership in a listed sequence of events: take the hypothesis apart,
    then point at the element. *)
Ltac in_listed :=
  let H := fresh "H" in
  intros H;
  repeat (apply elem_of_cons in H as [H|H]; [try subst|]);
  try (by apply elem_of_nil in H);
  try discriminate;
  repeat first [apply list_elem_of_here | apply list_elem_of_further].

(** [rfind] answers [-1] or an index of the string. *)
Lemma rfind_from_bound (c : ascii) (s : string) (i last : Z) :
  (last < i)%Z →
  (PyStr.rfind_from c s i last = last ∨
   i ≤ PyStr.rfind_from c s i last < i + Z.of_nat (String.length s))%Z.
Proof.
  revert i last. induction s as [|a s IH]; intros i last Hlast; simpl;
    [by left|].
  destruct (Ascii.eqb a c).
  - right. destruct (IH (i + 1)%Z i ltac:(lia)) as [-> | H]; lia.
  - destruct (IH (i + 1)%Z last ltac:(lia)) as [-> | H]; [by left|right; lia].
Qed.

Lemma rfind_bound (c : ascii) (s : string) :
  (-1 ≤ PyStr.rfind c s < Z.of_nat (String.length s))%Z.
Proof.
  unfold PyStr.rfind.
  destruct (rfind_from_bound c s 0 (-1) ltac:(lia)) as [-> | H]; lia.
Qed.

(** The loop of [splitext] ends within the fuel it is given: more fuel
    changes nothing once the fuel covers the distance to the last dot. *)
Lemma splitext_scan_enough (p : string) (dotIndex : Z) (fuel : nat) :
  ∀ filenameIndex,
    (dotIndex - filenameIndex ≤ Z.of_nat fuel)%Z →
    OsPath.splitext_scan p filenameIndex dotIndex (S fuel)
      = OsPath.splitext_scan p filenameIndex dotIndex fuel.
Proof.
  induction fuel as [|fuel IH]; intros filenameIndex Hfuel.
  - simpl. destruct (Z.ltb_spec filenameIndex dotIndex); [lia|done].
  - change (OsPath.splitext_scan p filenameIndex dotIndex (S (S fuel)))
      with (if (filenameIndex <? dotIndex)%Z then
              match String.get (Z.to_nat filenameIndex) p with
              | Some "."%char =>
                  OsPath.splitext_scan p (filenameIndex + 1) dotIndex (S fuel)
              | _ => Some (PyStr.slice_to p dotIndex,
                           PyStr.slice_from p dotIndex)
              end
            else None).
    rewrite IH by lia. reflexivity.
Qed.

Lemma splitext_fuel (p : string) (extra : nat) :
  let sepIndex := PyStr.rfind "/" p in
  let dotIndex := PyStr.rfind "." p in
  OsPath.splitext_scan p (sepIndex + 1) dotIndex (String.length p + extra)
    = OsPath.splitext_scan p (sepIndex + 1) dotIndex (String.length p).
Proof.
  intros sepIndex dotIndex.
  pose proof (rfind_bound "/" p). pose proof (rfind_bound "." p).
  induction extra as [|extra IH]; [by rewrite Nat.add_0_r|].
  rewrite Nat.add_succ_r, splitext_scan_enough; [done|].
  fold sepIndex in H. fold dotIndex in H0. lia.
Qed.

(** The loader never touches the database. *)
Lemma load_config_state (W : World) (config_path : string) (s : DB W) :
  (load_config W config_path s).1.2 = s.
Proof.
  unfold load_config.
  destruct (path_exists W config_path); simpl; [|reflexivity].
  destruct (_ || _).
  { run_steps. destruct (open_read W config_path) as [what|file]; simpl;
      [reflexivity|]. destruct (yaml_safe_load W file); reflexivity. }
  destruct (String.eqb _ _); [|reflexivity].
  run_steps. destruct (open_read W config_path) as [what|file]; simpl;
    [reflexivity|]. destruct (json_load W file); reflexivity.
Qed.

(** An existing file whose extension is [.yaml] or [.yml], in any case,
    is opened and read by the YAML parser. *)
Lemma load_config_yaml (W : World) (config_path : string) (s : DB W) :
  path_exists W config_path = true →
  file_ext_of config_path = ".yaml" ∨ file_ext_of config_path = ".yml" →
  load_config W config_path s =
    (match open_read W config_path with
     | inr file => of_lib (yaml_safe_load W file)
     | inl what => Raise (LibraryError what)
     end, s, [EOpen config_path]).
Proof.
  intros Hexists Hext. unfold load_config. rewrite Hexists. simpl.
  assert (String.eqb (file_ext_of config_path) ".yaml"
          || String.eqb (file_ext_of config_path) ".yml" = true) as ->.
  { destruct Hext as [-> | ->]; reflexivity. }
  run_steps. destruct (open_read W config_path) as [what|file]; simpl;
    [reflexivity|]. destruct (yaml_safe_load W file); reflexivity.
Qed.

(** An existing file whose extension is [.json], in any case, is opened
    and read by the JSON parser. *)
Lemma load_config_json (W : World) (config_path : string) (s : DB W) :
  path_exists W config_path = true →
  file_ext_of config_path = ".json" →
  load_config W config_path s =
    (match open_read W config_path with
     | inr file => of_lib (json_load W file)
     | inl what => Raise (LibraryError what)
     end, s, [EOpen config_path]).
Proof.
  intros Hexists Hext. unfold load_config. rewrite Hexists, Hext. simpl.
  run_steps. destruct (open_read W config_path) as [what|file]; simpl;
    [reflexivity|]. destruct (json_load W file); reflexivity.
Qed.

(** C6: a path that does not exist raises the not-found error; an existing
    path is dispatched on its extension, compared in lower case: [.yaml]
    and [.yml] go to the YAML parser, [.json] to the JSON parser, and any
    other extension raises the unsupported-format error that names the
    (lower-cased) extension, with no file opened and no value returned. *)
Theorem load_config_dispatch (W : World) (config_path : string) (s : DB W) :
  let ext := snd (OsPath.splitext config_path) in
  (path_exists W config_path = false →
   load_config W config_path s = (Raise (config_not_found config_path), s, [])) ∧
  (path_exists W config_path = true →
   (PyStr.lower ext = ".yaml" ∨ PyStr.lower ext = ".yml" →
    load_config W config_path s =
      (match open_read W config_path with
       | inr file => of_lib (yaml_safe_load W file)
       | inl what => Raise (LibraryError what)
       end, s, [EOpen config_path])) ∧
   (PyStr.lower ext = ".json" →
    load_config W config_path s =
      (match open_read W config_path with
       | inr file => of_lib (json_load W file)
       | inl what => Raise (LibraryError what)
       end, s, [EOpen config_path])) ∧
   (PyStr.lower ext ≠ ".yaml" → PyStr.lower ext ≠ ".yml" →
    PyStr.lower ext ≠ ".json" →
    load_config W config_path s =
      (Raise (ValueError ("Unsupported config file format: " +:+ PyStr.lower ext
                          +:+ ". Use .yaml, .yml, or .json")), s, []))).
Proof.
  intros ext. split.
  - intros Hmissing. unfold load_config. rewrite Hmissing. reflexivity.
  - intros Hexists. split; [|split].
    + intros Hext. by apply load_config_yaml.
    + intros Hext. by apply load_config_json.
    + intros Hyaml Hyml Hjson.
      unfold load_config, file_ext_of. fold ext. rewrite Hexists. simpl.
      apply String.eqb_neq in Hyaml, Hyml, Hjson.
      rewrite Hyaml, Hyml, Hjson. reflexivity.
Qed.

Lemma load_config_dispatch_witness :
  let W := Sample.world Sample.three_rows [] in
  load_config W "missing.yaml" [] =
    (Raise (FileNotFoundError "Config file not found: missing.yaml"), [], []) ∧
  load_config W "trino_config.yaml" [] =
    (Ok Sample.config, [], [EOpen "trino_config.yaml"]) ∧
  load_config W "conf/Trino.JSON" [] =
    (Ok Sample.config, [], [EOpen "conf/Trino.JSON"]) ∧
  load_config W "notes.txt" [] =
    (Raise (ValueError
       "Unsupported config file format: .txt. Use .yaml, .yml, or .json"),
     [], []).
Proof.
  intros W. split; [|split; [|split]].
  - apply (load_config_dispatch W "missing.yaml" []). reflexivity.
  - pose proof (load_config_dispatch W "trino_config.yaml" []) as [_ H].
    destruct (H eq_refl) as [Hyaml _]. rewrite Hyaml; [reflexivity|].
    left. reflexivity.
  - pose proof (load_config_dispatch W "conf/Trino.JSON" []) as [_ H].
    destruct (H eq_refl) as (_ & Hjson & _). rewrite Hjson; reflexivity.
  - pose proof (load_config_dispatch W "notes.txt" []) as [_ H].
    destruct (H eq_refl) as (_ & _ & Hother). rewrite Hother; [reflexivity|..];
      vm_compute; discriminate.
Defined.

(** C8: a YAML file and a JSON file that denote the same data load to the
    same mapping: the loader returns what the parser of the file's format
    reads, and nothing else depends on the format. *)
Theorem load_config_yaml_json_agree (W : World)
    (yaml_path json_path : string) (d : pyobj) (s : DB W) :
  path_exists W yaml_path = true →
  path_exists W json_path = true →
  file_ext_of yaml_path = ".yaml" ∨ file_ext_of yaml_path = ".yml" →
  file_ext_of json_path = ".json" →
  Spec.yaml_denotes W yaml_path d →
  Spec.json_denotes W json_path d →
  (load_config W yaml_path s).1.1 = (load_config W json_path s).1.1 ∧
  (load_config W json_path s).1.1 = Ok d.
Proof.
  intros Hy Hj Hyext Hjext (cy & Hcy & Hdy) (cj & Hcj & Hdj).
  rewrite (load_config_yaml W yaml_path s Hy Hyext).
  rewrite (load_config_json W json_path s Hj Hjext).
  rewrite Hcy, Hcj, Hdy, Hdj. split; reflexivity.
Qed.

Lemma load_config_yaml_json_agree_witness :
  let W := Sample.world Sample.three_rows [] in
  (load_config W "trino_config.yaml" []).1.1 =
    (load_config W "conf/Trino.JSON" []).1.1 ∧
  (load_config W "conf/Trino.JSON" []).1.1 = Ok Sample.config.
Proof.
  intros W.
  apply (load_config_yaml_json_agree W "trino_config.yaml" "conf/Trino.JSON"
           Sample.config []).
  - reflexivity.
  - reflexivity.
  - left. reflexivity.
  - reflexivity.
  - exists Sample.yaml_document. split; reflexivity.
  - exists Sample.json_document. split; reflexivity.
Defined.

(** ** The schema discoverer *)

Lemma count_char_zero (c : ascii) (s : string) :
  Spec.count_char c s = 0 →
  PyStr.has_char c s = false ∧ PyStr.split c s = [s] ∧
  Spec.partition_first c s = None.
Proof.
  induction s as [|a s IH]; simpl; [auto|].
  destruct (Ascii.eqb a c); simpl; [discriminate|].
  intros H. destruct (IH H) as (-> & -> & ->). auto.
Qed.

Lemma count_char_one (c : ascii) (s : string) :
  Spec.count_char c s = 1 →
  ∃ before after,
    PyStr.has_char c s = true ∧ PyStr.split c s = [before; after] ∧
    Spec.partition_first c s = Some (before, after).
Proof.
  induction s as [|a s IH]; simpl; [discriminate|].
  destruct (Ascii.eqb a c); simpl.
  - intros H. injection H as H.
    destruct (count_char_zero c s H) as (_ & -> & _).
    exists EmptyString, s. auto.
  - intros H. destruct (IH H) as (before & after & -> & -> & ->).
    exists (String a before), after. auto.
Qed.

(** C5 (as the code has it): a table name with one ['.'] is cut there into
    the schema before it and the table after it; a name with no ['.'] is
    the table name, and the schema is left to the connection. *)
Theorem parse_table_name_at_most_one_dot (table_name : string) :
  Spec.count_char "." table_name ≤ 1 →
  parse_table_name table_name = Ok (Spec.split_on_first_dot table_name).
Proof.
  intros Hcount. unfold parse_table_name, Spec.split_on_first_dot.
  destruct (Spec.count_char "." table_name) as [|[|n]] eqn:Hn; [| |lia].
  - destruct (count_char_zero _ _ Hn) as (-> & _ & ->). reflexivity.
  - destruct (count_char_one _ _ Hn) as (before & after & -> & -> & ->).
    reflexivity.
Qed.

Lemma parse_table_name_at_most_one_dot_witness :
  parse_table_name "sales.orders" = Ok (Some "sales", "orders") ∧
  parse_table_name "orders" = Ok (None, "orders").
Proof.
  split.
  - apply (parse_table_name_at_most_one_dot "sales.orders"). simpl. lia.
  - apply (parse_table_name_at_most_one_dot "orders"). simpl. lia.
Defined.

(** A name with two dots is not cut at the first one: unpacking the three
    parts raises, before any query is sent. *)
Lemma parse_table_name_two_dots :
  Spec.split_on_first_dot "a.b.c" = (Some "a", "b.c") ∧
  parse_table_name "a.b.c" =
    Raise (ValueError "too many values to unpack (expected 2)") ∧
  parse_table_name "a.b.c" ≠ Ok (Spec.split_on_first_dot "a.b.c").
Proof.
  split; [reflexivity|]. split; [reflexivity|]. discriminate.
Qed.

Lemma append_assoc (a b c : string) : (a +:+ b) +:+ c = a +:+ (b +:+ c).
Proof.
  induction a as [|x a IH]; [reflexivity|].
  change (String x ((a +:+ b) +:+ c) = String x (a +:+ b +:+ c)).
  by rewrite IH.
Qed.

(** The query always asks for the catalog's order. *)
Lemma metadata_query_order (schema : option string) (table : string) :
  ∃ head, metadata_query schema table =
          head +:+ "ORDER BY ordinal_position" +:+ PyStr.nl +:+ "    ".
Proof.
  exists (PyStr.nl +:+ "    SELECT column_name " +:+ PyStr.nl +:+
          "    FROM information_schema.columns " +:+ PyStr.nl +:+
          "    WHERE table_name = '" +:+ table +:+ "' " +:+
          schema_condition schema +:+ PyStr.nl +:+ "    ").
  unfold metadata_query. rewrite !append_assoc. reflexivity.
Qed.

(** The comprehension [[row[0] for row in rows]] keeps the rows' order. *)
Lemma map_result_first_cell (rows : list (list string)) (columns : list string) :
  map_result first_cell rows = Ok columns →
  Forall2 (λ row column, head row = Some column) rows columns.
Proof.
  revert columns. induction rows as [|row rows IH]; simpl; intros columns H.
  - injection H as <-. constructor.
  - destruct row as [|c row]; simpl in H; [discriminate|].
    destruct (map_result first_cell rows) as [cs|e]; [|discriminate].
    injection H as <-. constructor; [reflexivity|]. by apply IH.
Qed.

(** The discoverer, step by step. *)
Lemma get_table_columns_run (W : World) (table_name : string) (s : DB W) :
  get_table_columns W table_name s =
  match parse_table_name table_name with
  | Raise e => (Raise e, s, [])
  | Ok (schema, table) =>
      let query := ECall (Execute (metadata_query schema table) None) in
      match db_step W s (Execute (metadata_query schema table) None) with
      | inl what => (Raise (LibraryError what), s, [query])
      | inr (_, s1) =>
          match db_step W s1 FetchAll with
          | inl what => (Raise (LibraryError what), s1, [query; ECall FetchAll])
          | inr (rows, s2) =>
              match map_result first_cell rows with
              | Raise e => (Raise e, s2, [query; ECall FetchAll])
              | Ok [] => (Raise (table_not_found table_name), s2,
                          [query; ECall FetchAll])
              | Ok columns => (Ok columns, s2, [query; ECall FetchAll])
              end
          end
      end
  end.
Proof.
  unfold get_table_columns. run_steps.
  destruct (parse_table_name table_name) as [[schema table]|e]; simpl;
    [|reflexivity].
  destruct (db_step W s _) as [what|[ignored s1]]; simpl; [reflexivity|].
  destruct (db_step W s1 FetchAll) as [what|[rows s2]]; simpl; [reflexivity|].
  destruct (map_result first_cell rows) as [[|c cs]|e]; reflexivity.
Qed.

Lemma parse_table_name_error (table_name : string) (e : exn) :
  parse_table_name table_name = Raise e → e ≠ table_not_found table_name.
Proof.
  unfold parse_table_name, unpack2, table_not_found.
  destruct (PyStr.has_char "." table_name); [|discriminate].
  destruct (PyStr.split "." table_name) as [|a [|b [|c l]]]; simpl;
    intros H; try discriminate; injection H as <-; discriminate.
Qed.

Lemma map_result_first_cell_error (rows : list (list string)) (e : exn) :
  map_result first_cell rows = Raise e →
  e = IndexError "list index out of range".
Proof.
  induction rows as [|row rows IH]; simpl; [discriminate|].
  destruct row as [|c row]; simpl; [congruence|].
  destruct (map_result first_cell rows); [discriminate|].
  intros H. injection H as <-. by apply IH.
Qed.

Lemma first_cells_map_result (rows : list (list string))
    (columns : list string) :
  Forall2 (λ row column, head row = Some column) rows columns →
  map_result first_cell rows = Ok columns.
Proof.
  induction 1 as [|row column rows columns Hhead _ IH]; [reflexivity|].
  destruct row as [|c row]; [discriminate|]. simpl in Hhead.
  injection Hhead as ->. simpl. by rewrite IH.
Qed.

(** C7: for a name that parses into a schema (if any) and a table, the
    discoverer sends one query, the [SELECT column_name] over
    [information_schema.columns] that names this table, filters on the
    schema when there is one, and asks for [ORDER BY ordinal_position].
    If the fetch answers with rows, the discoverer returns the first
    cell of each, in the catalog's order, a list that is never empty; if
    it answers with no row, the discoverer raises the not-found error.
    It returns only in the first case and raises that error only in the
    second; a name that does not parse raises another error and sends
    nothing. *)
Theorem get_table_columns_ordered_nonempty (W : World) (table_name : string)
    (s : DB W) :
  let query_for := λ (schema : option string) (table : string),
    PyStr.nl +:+
    "    SELECT column_name " +:+ PyStr.nl +:+
    "    FROM information_schema.columns " +:+ PyStr.nl +:+
    "    WHERE table_name = '" +:+ table +:+ "' " +:+
      match schema with
      | Some (String c rest) => "AND table_schema = '" +:+ String c rest +:+ "'"
      | _ => EmptyString
      end +:+ PyStr.nl +:+
    "    ORDER BY ordinal_position" +:+ PyStr.nl +:+
    "    " in
  (∀ schema table,
     parse_table_name table_name = Ok (schema, table) →
     let sent := ECall (Execute (query_for schema table) None) in
     (∀ what,
        db_step W s (Execute (query_for schema table) None) = inl what →
        get_table_columns W table_name s
          = (Raise (LibraryError what), s, [sent])) ∧
     (∀ ignored s1 rows s2,
        db_step W s (Execute (query_for schema table) None)
          = inr (ignored, s1) →
        db_step W s1 FetchAll = inr (rows, s2) →
        (rows = [] →
         get_table_columns W table_name s
           = (Raise (table_not_found table_name), s2, [sent; ECall FetchAll])) ∧
        (∀ columns,
           rows ≠ [] →
           Forall2 (λ row column, head row = Some column) rows columns →
           columns ≠ [] ∧
           get_table_columns W table_name s
             = (Ok columns, s2, [sent; ECall FetchAll]))) ∧
     (∀ columns,
        (get_table_columns W table_name s).1.1 = Ok columns →
        columns ≠ [] ∧
        ∃ ignored s1 rows s2,
          db_step W s (Execute (query_for schema table) None)
            = inr (ignored, s1) ∧
          db_step W s1 FetchAll = inr (rows, s2) ∧
          Forall2 (λ row column, head row = Some column) rows columns) ∧
     ((get_table_columns W table_name s).1.1
        = Raise (table_not_found table_name) →
      ∃ ignored s1 s2,
        db_step W s (Execute (query_for schema table) None)
          = inr (ignored, s1) ∧
        db_step W s1 FetchAll = inr ([], s2))) ∧
  (∀ e,
     parse_table_name table_name = Raise e →
     e ≠ table_not_found table_name ∧
     get_table_columns W table_name s = (Raise e, s, [])).
Proof.
  intros query_for.
  assert (∀ schema table, query_for schema table = metadata_query schema table)
    as Hquery.
  { intros [[|c rest]|] table; reflexivity. }
  rewrite get_table_columns_run. split.
  - intros schema table Hparse sent. unfold sent. rewrite Hparse, Hquery.
    cbv zeta. split; [|split; [|split]].
    + intros what ->. reflexivity.
    + intros ignored s1 rows s2 -> ->. split.
      * intros ->. reflexivity.
      * intros columns Hrows Hheads.
        rewrite (first_cells_map_result rows columns Hheads).
        destruct Hheads as [|row column rows columns]; [done|].
        split; [discriminate|reflexivity].
    + intros columns.
      destruct (db_step W s _) as [what|[ignored s1]]; [discriminate|].
      destruct (db_step W s1 FetchAll) as [what|[rows s2]] eqn:Hfetch;
        [discriminate|].
      destruct (map_result first_cell rows) as [[|c cs]|e] eqn:Hcols;
        try discriminate.
      intros [= <-]. split; [discriminate|].
      exists ignored, s1, rows, s2. split; [done|]. split; [done|].
      by apply map_result_first_cell.
    + destruct (db_step W s _) as [what|[ignored s1]]; [discriminate|].
      destruct (db_step W s1 FetchAll) as [what|[rows s2]] eqn:Hfetch;
        [discriminate|].
      destruct rows as [|row rows]; [intros _; by exists ignored, s1, s2|].
      destruct (map_result first_cell (row :: rows)) as [[|c cs]|e] eqn:Hcols;
        simpl; try discriminate.
      * simpl in Hcols. destruct (first_cell row); [|discriminate].
        destruct (map_result first_cell rows); discriminate.
      * apply map_result_first_cell_error in Hcols as ->. discriminate.
  - intros e Hparse. rewrite Hparse.
    split; [by apply parse_table_name_error|reflexivity].
Qed.

Lemma get_table_columns_ordered_nonempty_witness :
  let W := Sample.world Sample.three_rows [["a"]; ["b"]] in
  let query :=
    PyStr.nl +:+
    "    SELECT column_name " +:+ PyStr.nl +:+
    "    FROM information_schema.columns " +:+ PyStr.nl +:+
    "    WHERE table_name = 't' AND table_schema = 's'" +:+ PyStr.nl +:+
    "    ORDER BY ordinal_position" +:+ PyStr.nl +:+
    "    " in
  get_table_columns W "s.t" []
    = (Ok ["a"; "b"], [], [ECall (Execute query None); ECall FetchAll]) ∧
  get_table_columns (Sample.world Sample.three_rows []) "s.t" []
    = (Raise (ValueError "Table s.t not found or has no columns"), [],
       [ECall (Execute query None); ECall FetchAll]).
Proof.
  intros W query. split.
  - destruct (get_table_columns_ordered_nonempty W "s.t" []) as [Hparsed _].
    destruct (Hparsed (Some "s") "t" eq_refl) as (_ & Hfetched & _).
    destruct (Hfetched [] [] [["a"]; ["b"]] [] eq_refl eq_refl) as [_ Hrows].
    apply (Hrows ["a"; "b"]); [discriminate|]. by repeat constructor.
  - destruct (get_table_columns_ordered_nonempty
                (Sample.world Sample.three_rows []) "s.t" []) as [Hparsed _].
    destruct (Hparsed (Some "s") "t" eq_refl) as (_ & Hfetched & _).
    destruct (Hfetched [] [] [] [] eq_refl eq_refl) as [Hempty _].
    exact (Hempty eq_refl).
Defined.

(** ** Frames and rows *)

Lemma positional_cons {A} (from : nat) (c : label * A) (cols : list (label * A)) :
  positional from (c :: cols) → c.1 = LPos from ∧ positional (S from) cols.
Proof.
  intros H. split.
  - rewrite (H 0 c eq_refl). f_equal. lia.
  - intros j c' Hj. rewrite (H (S j) c' Hj). f_equal. lia.
Qed.

Lemma lookup_label_positional {A} (cols : list (label * A)) (from j : nat) :
  positional from cols →
  Pandas.lookup_label (LPos (from + j)) cols = snd <$> cols !! j.
Proof.
  revert from j. induction cols as [|[l a] cols IH]; intros from j Hpos;
    [reflexivity|].
  apply positional_cons in Hpos as [Hl Hpos]. simpl in Hl. subst l. simpl.
  destruct j as [|j].
  - rewrite Nat.add_0_r. by rewrite decide_True.
  - rewrite decide_False by (intros [=]; lia).
    replace (from + S j) with (S from + j) by lia. by apply IH.
Qed.

Lemma replace_label_positional {A} (cols : list (label * A)) (from j : nat)
    (a : A) :
  positional from cols → j < length cols →
  Pandas.replace_label (LPos (from + j)) a cols
    = <[j := (LPos (from + j), a)]> cols.
Proof.
  revert from j. induction cols as [|[l a'] cols IH]; intros from j Hpos Hj;
    simpl in Hj; [lia|].
  apply positional_cons in Hpos as [Hl Hpos]. simpl in Hl. subst l. simpl.
  destruct j as [|j].
  - rewrite Nat.add_0_r. by rewrite decide_True.
  - rewrite decide_False by (intros [=]; lia). simpl. f_equal.
    replace (from + S j) with (S from + j) by lia. apply IH; [done|lia].
Qed.

Lemma set_columns_range_positional (df : DataFrame) :
  positional 0 (df_columns (Pandas.set_columns_range df)).
Proof.
  intros j c. simpl. rewrite list_lookup_imap.
  destruct (df_columns df !! j); simpl; [|discriminate].
  by intros [= <-].
Qed.

Lemma set_columns_range_lookup (df : DataFrame) (j : nat) :
  snd <$> df_columns (Pandas.set_columns_range df) !! j
    = snd <$> df_columns df !! j.
Proof. simpl. rewrite list_lookup_imap. by destruct (df_columns df !! j). Qed.

Lemma row_at_positional (W : World) (df : DataFrame) (k : nat) :
  positional 0 (df_columns df) → positional 0 (Pandas.row_at W df k).
Proof.
  intros Hpos j c. unfold Pandas.row_at. rewrite list_lookup_fmap.
  destruct (df_columns df !! j) as [c'|] eqn:Hj; simpl; [|discriminate].
  intros [= <-]. simpl. by apply Hpos.
Qed.

(** A comprehension over total cells is a [map]. *)
Lemma map_result_total {A B} (f : A → result B) (g : A → B) (l : list A) :
  (∀ a, a ∈ l → f a = Ok (g a)) → map_result f l = Ok (map g l).
Proof.
  induction l as [|a l IH]; intros H; simpl; [reflexivity|].
  rewrite (H a) by left. rewrite IH; [reflexivity|].
  intros a' Ha'. apply H. by right.
Qed.

Lemma map_result_length {A B} (f : A → result B) (l : list A) (bs : list B) :
  map_result f l = Ok bs → length bs = length l.
Proof.
  revert bs. induction l as [|a l IH]; simpl; intros bs H.
  - by injection H as <-.
  - destruct (f a); [|discriminate].
    destruct (map_result f l) as [bs'|]; [|discriminate].
    injection H as <-. simpl. f_equal. by apply IH.
Qed.

Lemma row_values_positional (row : Series) (n : nat) :
  positional 0 row → row_values row n = Ok (map (bound_cell row) (seq 0 n)).
Proof.
  intros Hpos. unfold row_values. apply map_result_total. intros i _.
  unfold bound_cell, Pandas.row_getitem.
  pose proof (lookup_label_positional row 0 i Hpos) as Hl. simpl in Hl.
  rewrite Hl.
  destruct (Nat.ltb_spec i (length row)) as [Hi|Hi].
  - destruct (lookup_lt_is_Some_2 row i Hi) as [c ->]. reflexivity.
  - by rewrite (lookup_ge_None_2 row i Hi).
Qed.

(** ** Date columns *)

(** One round of the loop of lines 84-90. *)
Lemma convert_date_step (W : World) (df : DataFrame) (col_idx : nat)
    (col_name : string) (s : DB W) :
  positional 0 (df_columns df) →
  ∃ df',
    (if is_date_name col_name && (col_idx <? Pandas.ncols df)%nat
     then try_except W (convert_column W df col_idx) (ret W df)
     else ret W df) s = (Ok df', s, []) ∧
    df_nrows df' = df_nrows df ∧
    length (df_columns df') = length (df_columns df) ∧
    positional 0 (df_columns df') ∧
    ∀ j, snd <$> df_columns df' !! j =
         (λ column, if decide (j = col_idx)
                    then coerced W (Some col_name) column else column)
           <$> (snd <$> df_columns df !! j).
Proof.
  intros Hpos. unfold coerced.
  destruct (is_date_name col_name) eqn:Hname; simpl.
  2:{ exists df. repeat split; try done. intros j.
      destruct (df_columns df !! j); simpl; [|done]. by destruct (decide _). }
  destruct (Nat.ltb_spec col_idx (Pandas.ncols df)) as [Hidx|Hidx].
  2:{ exists df. repeat split; try done. intros j.
      destruct (decide (j = col_idx)) as [->|Hne].
      - by rewrite (lookup_ge_None_2 _ _ Hidx).
      - destruct (df_columns df !! j); simpl; [|done]. done. }
  destruct (lookup_lt_is_Some_2 _ _ Hidx) as [[l column] Hcol].
  pose proof (lookup_label_positional (df_columns df) 0 col_idx Hpos) as Hget.
  simpl in Hget. rewrite Hcol in Hget. simpl in Hget.
  unfold convert_column, Pandas.getitem. run_steps. rewrite Hget. simpl.
  destruct (to_datetime_date W column) as [what|dates] eqn:Hdates; simpl.
  - exists df. repeat split; try done. intros j.
    destruct (decide (j = col_idx)) as [->|Hne].
    + rewrite Hcol. simpl. by rewrite Hdates.
    + destruct (df_columns df !! j); simpl; done.
  - eexists. split; [reflexivity|]. simpl.
    pose proof (replace_label_positional (df_columns df) 0 col_idx
                  (map date_cell dates) Hpos Hidx) as Hset.
    simpl in Hset. rewrite Hset.
    split; [done|]. split; [by rewrite length_insert|]. split.
    + intros j c.
      destruct (decide (j = col_idx)) as [->|Hne].
      * rewrite list_lookup_insert_eq by done. by intros [= <-].
      * rewrite list_lookup_insert_ne by done. apply Hpos.
    + intros j. destruct (decide (j = col_idx)) as [->|Hne].
      * rewrite list_lookup_insert_eq by done. rewrite Hcol. simpl.
        by rewrite Hdates.
      * rewrite list_lookup_insert_ne by done.
        destruct (df_columns df !! j); simpl; done.
Qed.

(** The whole loop, started at index [col_idx]. *)
Lemma convert_date_columns_run (W : World) (table_columns : list string) :
  ∀ (col_idx : nat) (df : DataFrame) (s : DB W),
    positional 0 (df_columns df) →
    ∃ df',
      convert_date_columns W col_idx table_columns df s = (Ok df', s, []) ∧
      df_nrows df' = df_nrows df ∧
      length (df_columns df') = length (df_columns df) ∧
      positional 0 (df_columns df') ∧
      ∀ j, snd <$> df_columns df' !! j =
           (λ column, if decide (col_idx ≤ j)%nat
                      then coerced W (table_columns !! (j - col_idx)) column
                      else column)
             <$> (snd <$> df_columns df !! j).
Proof.
  induction table_columns as [|col_name rest IH]; intros col_idx df s Hpos.
  - exists df. repeat split; try done. intros j.
    destruct (df_columns df !! j); simpl; [|done]. by destruct (decide _).
  - destruct (convert_date_step W df col_idx col_name s Hpos)
      as (df1 & Hstep & Hrows1 & Hlen1 & Hpos1 & Hcols1).
    destruct (IH (S col_idx) df1 s Hpos1)
      as (df2 & Hrest & Hrows2 & Hlen2 & Hpos2 & Hcols2).
    exists df2. split.
    { simpl. unfold bind at 1. rewrite Hstep, Hrest. reflexivity. }
    split; [congruence|]. split; [congruence|]. split; [done|].
    intros j. rewrite Hcols2, Hcols1.
    destruct (df_columns df !! j) as [c|]; simpl; [|done]. f_equal.
    destruct (decide (j = col_idx)) as [->|Hne].
    + rewrite decide_False by lia. rewrite decide_True by lia.
      by rewrite Nat.sub_diag.
    + destruct (decide (S col_idx ≤ j)%nat) as [Hle|Hle].
      * rewrite decide_True by lia.
        by replace (j - col_idx) with (S (j - S col_idx)) by lia.
      * by rewrite decide_False by lia.
Qed.

(** ** Bound columns and rows *)

Lemma bind_columns_run (W : World) (table_columns : list string)
    (df : DataFrame) (s : DB W) :
  ∃ bound log,
    bind_columns W table_columns df s = (Ok bound, s, log) ∧
    length bound = min (length table_columns) (Pandas.ncols df) ∧
    (Pandas.ncols df < length table_columns →
     bound = take (Pandas.ncols df) table_columns ∧
     log = [EPrint (TruncationWarning (length table_columns) (Pandas.ncols df))]) ∧
    (length table_columns ≤ Pandas.ncols df →
     bound = table_columns ∧ log = []).
Proof.
  unfold bind_columns.
  destruct (Nat.ltb_spec (Pandas.ncols df) (length table_columns)) as [Hlt|Hge].
  - eexists _, _. split; [reflexivity|]. split; [|split; [done|lia]].
    rewrite length_take. lia.
  - eexists _, _. split; [reflexivity|]. split; [lia|]. split; [lia|done].
Qed.

Lemma iterrows_rows (W : World) (df : DataFrame) (row : Series) :
  positional 0 (df_columns df) →
  row ∈ Pandas.iterrows W df →
  positional 0 row ∧ length row = Pandas.ncols df.
Proof.
  intros Hpos Hrow. unfold Pandas.iterrows in Hrow.
  apply list_elem_of_fmap in Hrow as (k & -> & _). split.
  - by apply row_at_positional.
  - unfold Pandas.row_at, Pandas.ncols. by rewrite length_map.
Qed.

(** A row at least as long as the bound columns gives its own first
    cells. *)
Lemma bound_cells_take (row : Series) (n : nat) :
  n ≤ length row → map (bound_cell row) (seq 0 n) = map snd (take n row).
Proof.
  intros Hn. apply list_eq. intros i.
  rewrite !list_lookup_fmap.
  destruct (decide (i < n)) as [Hi|Hi].
  - rewrite lookup_seq_lt, lookup_take_lt by done. simpl. unfold bound_cell.
    destruct (lookup_lt_is_Some_2 row i) as [c ->]; [lia|done].
  - by rewrite lookup_seq_ge, lookup_take_ge by lia.
Qed.

(** C10: once the columns are bound there are no more of them than the
    CSV has columns, and the conversion of dates keeps the number of data
    columns; every row of the frame has one cell per data column, so the
    test [i < len(row)] of line 100 holds at every bound index and the
    values of a row are its own first cells: [None] is never put in. *)
Theorem fallback_never_taken (W : World) (table_columns : list string)
    (df : DataFrame) (s : DB W) :
  ∃ bound log df',
    bind_columns W table_columns df s = (Ok bound, s, log) ∧
    convert_date_columns W 0 bound (Pandas.set_columns_range df) s
      = (Ok df', s, []) ∧
    Pandas.ncols df' = Pandas.ncols df ∧
    length bound ≤ Pandas.ncols df ∧
    ∀ row, row ∈ Pandas.iterrows W df' →
      length row = Pandas.ncols df ∧
      (∀ i, i < length bound → (i <? length row)%nat = true) ∧
      row_values row (length bound) = Ok (map snd (take (length bound) row)).
Proof.
  destruct (bind_columns_run W table_columns df s)
    as (bound & log & Hbind & Hmin & _).
  destruct (convert_date_columns_run W bound 0 (Pandas.set_columns_range df) s
              (set_columns_range_positional df))
    as (df' & Hconv & _ & Hlen & Hpos & _).
  assert (Pandas.ncols df' = Pandas.ncols df) as Hncols.
  { unfold Pandas.ncols. rewrite Hlen. simpl. by rewrite length_imap. }
  exists bound, log, df'. split; [done|]. split; [done|]. split; [done|].
  split; [lia|]. intros row Hrow.
  destruct (iterrows_rows W df' row Hpos Hrow) as [Hrowpos Hrowlen].
  split; [lia|]. split.
  - intros i Hi. apply Nat.ltb_lt. lia.
  - rewrite row_values_positional by done. f_equal.
    apply bound_cells_take. lia.
Qed.

(** Every event of the row loop is an INSERT with one value per bound
    column. *)
Lemma insert_rows_events (W : World) (table_name : string)
    (table_columns : list string) (rows : list Series) :
  ∀ (rows_inserted : nat) (s : DB W) (e : event),
    e ∈ (insert_rows W table_name table_columns rows rows_inserted s).2 →
    ∃ values,
      e = ECall (Execute (insert_query table_name table_columns) (Some values)) ∧
      length values = length table_columns.
Proof.
  induction rows as [|row rows IH]; intros k s e; simpl.
  { intros H. by apply elem_of_nil in H. }
  run_steps.
  destruct (row_values row (length table_columns)) as [values|err] eqn:Hvalues;
    simpl.
  2:{ intros H. by apply elem_of_nil in H. }
  apply map_result_length in Hvalues. rewrite length_seq in Hvalues.
  destruct (db_step W s _) as [what|[ignored s1]]; simpl.
  - intros H. apply list_elem_of_singleton in H as ->. by exists values.
  - destruct (insert_rows W table_name table_columns rows (S k) s1)
      as [[r s2] log2] eqn:Hrest. simpl.
    intros H. apply elem_of_cons in H as [->|H]; [by exists values|].
    apply (IH (S k) s1 e). by rewrite Hrest.
Qed.

Lemma commit_and_report_events (W : World) (csv_path table_name : string)
    (rows_inserted n_columns : nat) (s : DB W) (e : event) :
  e ∈ (commit_and_report W csv_path table_name rows_inserted n_columns s).2 →
  e ∈ [ECall Commit; ECall CursorClose; ECall ConnClose;
       EPrint (InsertedSuccessfully csv_path table_name);
       EPrint (InsertedCount rows_inserted n_columns)].
Proof.
  unfold commit_and_report. run_steps.
  destruct (db_step W s Commit) as [what|[r1 s1]]; simpl; [in_listed|].
  destruct (db_step W s1 CursorClose) as [what|[r2 s2]]; simpl; [in_listed|].
  destruct (db_step W s2 ConnClose) as [what|[r3 s3]]; simpl; in_listed.
Qed.

(** C2: the bound columns are the first [min(len(table), len(csv))] table
    columns.  With more table columns than CSV columns the list is cut to
    the CSV's column count and a warning is printed, and the run goes on;
    otherwise the discovered list is used as it is.  The count is set
    before the rows are read: every INSERT of the run has the same text
    and carries exactly that many values. *)
Theorem bound_columns_min (W : World) (csv_path table_name : string)
    (table_columns : list string) (df : DataFrame) (s : DB W) :
  ∃ bound log,
    bind_columns W table_columns df s = (Ok bound, s, log) ∧
    length bound = min (length table_columns) (Pandas.ncols df) ∧
    (Pandas.ncols df < length table_columns →
     bound = take (Pandas.ncols df) table_columns ∧
     log = [EPrint (TruncationWarning (length table_columns) (Pandas.ncols df))]) ∧
    (length table_columns ≤ Pandas.ncols df →
     bound = table_columns ∧ log = []) ∧
    ∀ query values,
      ECall (Execute query (Some values))
        ∈ (load_rows W csv_path table_name table_columns df s).2 →
      query = insert_query table_name bound ∧
      length values = min (length table_columns) (Pandas.ncols df).
Proof.
  destruct (bind_columns_run W table_columns df s)
    as (bound & log & Hbind & Hmin & Hcut & Hfull).
  exists bound, log. split; [done|]. split; [done|]. split; [done|].
  split; [done|]. intros query values.
  destruct (convert_date_columns_run W bound 0 (Pandas.set_columns_range df) s
              (set_columns_range_positional df))
    as (df' & Hconv & _).
  unfold load_rows. unfold bind at 1. rewrite Hbind.
  unfold bind at 1. rewrite Hconv. unfold bind at 1.
  destruct (insert_rows W table_name bound (Pandas.iterrows W df') 0 s)
    as [[r s1] log1] eqn:Hrows.
  assert (∀ e, e ∈ log1 →
            ∃ vs, e = ECall (Execute (insert_query table_name bound) (Some vs)) ∧
                  length vs = length bound) as Hlog1.
  { intros e He.
    apply (insert_rows_events W table_name bound (Pandas.iterrows W df') 0 s e).
    by rewrite Hrows. }
  assert (ECall (Execute query (Some values)) ∈ log ++ log1 →
          query = insert_query table_name bound ∧
          length values = min (length table_columns) (Pandas.ncols df))
    as Hfront.
  { intros H. apply elem_of_app in H as [H|H].
    - destruct (decide (Pandas.ncols df < length table_columns)) as [Hlt|Hge].
      + destruct (Hcut Hlt) as [_ ->]. revert H. in_listed.
      + destruct Hfull as [_ ->]; [lia|]. revert H. in_listed.
    - destruct (Hlog1 _ H) as (vs & [= -> ->] & Hvs). split; [done|lia]. }
  destruct r as [n|err]; simpl.
  - destruct (commit_and_report W csv_path table_name n (length bound) s1)
      as [[r2 s2] log2] eqn:Hend. simpl. intros H.
    rewrite app_assoc in H. apply elem_of_app in H as [H|H];
      [by apply Hfront|].
    assert (ECall (Execute query (Some values))
              ∈ (commit_and_report W csv_path table_name n (length bound) s1).2)
      as Htail by (by rewrite Hend).
    apply commit_and_report_events in Htail. revert Htail. in_listed.
  - apply Hfront.
Qed.

(** ** The whole run *)

Lemma call_accepted (W : World) (c : db_call) (s : DB W) :
  accepts W c → ∃ rows s', call W c s = (Ok rows, s', [ECall c]).
Proof.
  intros Hacc. destruct (Hacc s) as (rows & s' & Hstep).
  exists rows, s'. unfold call. by rewrite Hstep.
Qed.

(** With a database that takes every INSERT, the loop sends one INSERT per
    row, in order, and counts them. *)
Lemma insert_rows_accepted (W : World) (table_name : string)
    (table_columns : list string) (rows : list Series) :
  (∀ query values, accepts W (Execute query (Some values))) →
  Forall (positional 0) rows →
  ∀ (rows_inserted : nat) (s : DB W),
    ∃ s',
      insert_rows W table_name table_columns rows rows_inserted s =
        (Ok (rows_inserted + length rows), s',
         map (λ row, ECall (Execute (insert_query table_name table_columns)
                              (Some (map (bound_cell row)
                                       (seq 0 (length table_columns))))))
           rows).
Proof.
  intros Hacc Hrows. induction Hrows as [|row rows Hrow Hrows IH];
    intros k s; simpl.
  - exists s. unfold ret. by rewrite Nat.add_0_r.
  - destruct (call_accepted W
                (Execute (insert_query table_name table_columns)
                   (Some (map (bound_cell row) (seq 0 (length table_columns)))))
                s (Hacc _ _)) as (ignored & s1 & Hcall).
    destruct (IH (S k) s1) as (s2 & Hrest). exists s2.
    unfold bind at 1. unfold lift. rewrite (row_values_positional row _ Hrow).
    unfold bind at 1. rewrite Hcall, Hrest. simpl.
    by replace (k + S (length rows)) with (S k + length rows) by lia.
Qed.

Lemma commit_and_report_accepted (W : World) (csv_path table_name : string)
    (rows_inserted n_columns : nat) (s : DB W) :
  (∀ c, c ≠ FetchAll → accepts W c) →
  ∃ s',
    commit_and_report W csv_path table_name rows_inserted n_columns s =
      (Ok (), s',
       [ECall Commit; ECall CursorClose; ECall ConnClose;
        EPrint (InsertedSuccessfully csv_path table_name);
        EPrint (InsertedCount rows_inserted n_columns)]).
Proof.
  intros Hacc.
  destruct (call_accepted W Commit s (Hacc Commit ltac:(discriminate)))
    as (r1 & s1 & H1).
  destruct (call_accepted W CursorClose s1 (Hacc CursorClose ltac:(discriminate)))
    as (r2 & s2 & H2).
  destruct (call_accepted W ConnClose s2 (Hacc ConnClose ltac:(discriminate)))
    as (r3 & s3 & H3).
  exists s3. unfold commit_and_report.
  unfold bind at 1. rewrite H1. unfold bind at 1. rewrite H2.
  unfold bind at 1. rewrite H3. reflexivity.
Qed.

(** Lines 75-115 against a database that takes every call: the warning if
    the columns were cut, then one INSERT per row of the frame in index
    order, then one commit, the two closes and the two closing lines. *)
Lemma load_rows_accepted (W : World) (csv_path table_name : string)
    (table_columns : list string) (df : DataFrame) (s : DB W) :
  (∀ c, c ≠ FetchAll → accepts W c) →
  ∃ bound warning df' s',
    bind_columns W table_columns df s = (Ok bound, s, warning) ∧
    convert_date_columns W 0 bound (Pandas.set_columns_range df) s
      = (Ok df', s, []) ∧
    load_rows W csv_path table_name table_columns df s =
      (Ok (), s',
       warning ++
       map (λ row, ECall (Execute (insert_query table_name bound)
                            (Some (map (bound_cell row)
                                     (seq 0 (length bound))))))
         (Pandas.iterrows W df') ++
       [ECall Commit; ECall CursorClose; ECall ConnClose;
        EPrint (InsertedSuccessfully csv_path table_name);
        EPrint (InsertedCount (df_nrows df) (length bound))]).
Proof.
  intros Hacc.
  destruct (bind_columns_run W table_columns df s)
    as (bound & warning & Hbind & _).
  destruct (convert_date_columns_run W bound 0 (Pandas.set_columns_range df) s
              (set_columns_range_positional df))
    as (df' & Hconv & Hnrows & _ & Hpos & _).
  assert (Forall (positional 0) (Pandas.iterrows W df')) as Hrows.
  { apply Forall_forall. intros row Hrow.
    by destruct (iterrows_rows W df' row Hpos Hrow). }
  destruct (insert_rows_accepted W table_name bound (Pandas.iterrows W df')
              (λ q vs, Hacc (Execute q (Some vs)) ltac:(discriminate)) Hrows 0 s)
    as (s1 & Hinsert).
  destruct (commit_and_report_accepted W csv_path table_name
              (0 + length (Pandas.iterrows W df')) (length bound) s1 Hacc)
    as (s2 & Hend).
  exists bound, warning, df', s2. split; [done|]. split; [done|].
  unfold load_rows. unfold bind at 1. rewrite Hbind.
  unfold bind at 1. rewrite Hconv. unfold bind at 1. rewrite Hinsert, Hend.
  simpl. unfold Pandas.iterrows. rewrite length_map, length_seq, Hnrows.
  reflexivity.
Qed.

Lemma open_and_load_connects (W : World) (csv_path table_name : string)
    (params : conn_params) (df : DataFrame) (s : DB W) :
  ∃ r s' rest,
    open_and_load W csv_path table_name params df s =
      (r, s', ECall (Connect params) :: rest).
Proof.
  unfold open_and_load. unfold bind at 1. unfold call at 1.
  destruct (db_step W s (Connect params)) as [what|[rows s1]].
  - by eexists _, _, _.
  - cbv beta. destruct (bind W _ _ s1) as [[r s2] log].
    by eexists _, _, _.
Qed.

(** The script up to the connection: when the configuration loads to a
    mapping and the CSV is read, the run is the run of lines 62-115 with
    the parameters read from the mapping. *)
Lemma insert_csv_to_iceberg_run (W : World)
    (csv_path table_name config_path : string) (m : gmap string pyobj)
    (params : conn_params) (df : DataFrame) (s s1 : DB W) (log0 : list event) :
  load_config W config_path s = (Ok (PDict m), s1, log0) →
  read_csv W csv_path = inr df →
  connection_params (default (PDict ∅) (m !! "trino")) = Ok params →
  insert_csv_to_iceberg W csv_path table_name config_path s =
    match open_and_load W csv_path table_name params df s1 with
    | (r, s', log) => (r, s', log0 ++ EReadCsv csv_path :: log)
    end.
Proof.
  intros Hload Hcsv Hparams. unfold insert_csv_to_iceberg.
  unfold bind at 1. rewrite Hload.
  unfold bind at 1, lift at 1, dict_get.
  unfold bind at 1, emit at 1.
  unfold bind at 1, lift at 1. rewrite Hcsv. simpl of_lib.
  unfold bind at 1, lift at 1. rewrite Hparams.
  destruct (open_and_load W csv_path table_name params df s1) as [[r s'] log].
  reflexivity.
Qed.

(** C9: a configuration mapping without a ['trino'] key raises nothing:
    the empty mapping stands in for the section, every parameter takes
    its default, and (the CSV being readable) the run goes on with a
    connection to [localhost:8080] as user [trino], catalog [iceberg],
    schema [default]. *)
Theorem missing_trino_key_defaults (W : World)
    (csv_path table_name config_path : string) (m : gmap string pyobj)
    (df : DataFrame) (s s1 : DB W) (log0 : list event) :
  load_config W config_path s = (Ok (PDict m), s1, log0) →
  m !! "trino" = None →
  read_csv W csv_path = inr df →
  let defaults :=
    {| cp_host := PStr "localhost"; cp_port := PInt 8080;
       cp_user := PStr "trino"; cp_catalog := PStr "iceberg";
       cp_schema := PStr "default" |} in
  ∃ r s' rest,
    open_and_load W csv_path table_name defaults df s1 =
      (r, s', ECall (Connect defaults) :: rest) ∧
    insert_csv_to_iceberg W csv_path table_name config_path s =
      (r, s', log0 ++ EReadCsv csv_path :: ECall (Connect defaults) :: rest).
Proof.
  intros Hload Hkey Hcsv defaults.
  destruct (open_and_load_connects W csv_path table_name defaults df s1)
    as (r & s' & rest & Hrun).
  exists r, s', rest. split; [done|].
  rewrite (insert_csv_to_iceberg_run W csv_path table_name config_path m
             defaults df s s1 log0 Hload Hcsv).
  - by rewrite Hrun.
  - rewrite Hkey. reflexivity.
Qed.

Lemma missing_trino_key_defaults_witness :
  let W := Sample.world Sample.three_rows [["a"]; ["b"]] in
  let defaults :=
    {| cp_host := PStr "localhost"; cp_port := PInt 8080;
       cp_user := PStr "trino"; cp_catalog := PStr "iceberg";
       cp_schema := PStr "default" |} in
  ∃ r s' rest,
    open_and_load W "purchases.csv" "t" defaults Sample.three_rows [] =
      (r, s', ECall (Connect defaults) :: rest) ∧
    insert_csv_to_iceberg W "purchases.csv" "t" "empty.yml" [] =
      (r, s', [EOpen "empty.yml"] ++ EReadCsv "purchases.csv"
                :: ECall (Connect defaults) :: rest).
Proof.
  intros W.
  apply (missing_trino_key_defaults W "purchases.csv" "t" "empty.yml" ∅
           Sample.three_rows [] [] [EOpen "empty.yml"]); reflexivity.
Defined.

(** C1: with a configuration whose [trino] section gives host [h], port
    [1], user [u], catalog [c] and schema [s], a catalog that lists the
    columns [a], [b] for table [t], a CSV of three rows of two fields and
    a database that takes every call, the run connects with those
    parameters, discovers the columns, sends exactly three INSERTs into
    [t] naming the quoted columns in order with two placeholders, each
    with the two fields of its row (as [iterrows] hands them out, in the
    common dtype of the frame), then one commit, then closes the cursor
    and the connection, and reports 3 rows with 2 columns. *)
Theorem three_rows_two_columns (W : World) (csv_path config_path : string)
    (m trino : gmap string pyobj) (l1 l2 : label)
    (x1 x2 x3 y1 y2 y3 : pyobj) (s0 s1 : DB W) (log0 : list event) :
  load_config W config_path s0 = (Ok (PDict m), s1, log0) →
  m !! "trino" = Some (PDict trino) →
  trino !! "host" = Some (PStr "h") →
  trino !! "port" = Some (PInt 1) →
  trino !! "user" = Some (PStr "u") →
  trino !! "catalog" = Some (PStr "c") →
  trino !! "schema" = Some (PStr "s") →
  read_csv W csv_path =
    inr {| df_nrows := 3;
           df_columns := [(l1, [x1; x2; x3]); (l2, [y1; y2; y3])] |} →
  (∀ c, c ≠ FetchAll → accepts W c) →
  answers W (metadata_query None "t") [["a"]; ["b"]] →
  let insert :=
    PyStr.nl +:+ "        INSERT INTO t (" +:+
      dquote +:+ "a" +:+ dquote +:+ ", " +:+ dquote +:+ "b" +:+ dquote +:+
      ")" +:+ PyStr.nl +:+
    "        VALUES (?, ?)" +:+ PyStr.nl +:+
    "        " in
  let cell :=
    values_cast W
      {| df_nrows := 3;
         df_columns := [(LPos 0, [x1; x2; x3]); (LPos 1, [y1; y2; y3])] |} in
  message_text (InsertedCount 3 2) = Some "Inserted 3 rows with 2 columns" ∧
  ∃ s',
    insert_csv_to_iceberg W csv_path "t" config_path s0 =
      (Ok (), s',
       log0 ++
       [EReadCsv csv_path;
        ECall (Connect {| cp_host := PStr "h"; cp_port := PInt 1;
                          cp_user := PStr "u"; cp_catalog := PStr "c";
                          cp_schema := PStr "s" |});
        ECall Cursor;
        ECall (Execute (metadata_query None "t") None);
        ECall FetchAll;
        EPrint (UsingTableColumns ["a"; "b"]);
        ECall (Execute insert (Some [cell x1; cell y1]));
        ECall (Execute insert (Some [cell x2; cell y2]));
        ECall (Execute insert (Some [cell x3; cell y3]));
        ECall Commit;
        ECall CursorClose;
        ECall ConnClose;
        EPrint (InsertedSuccessfully csv_path "t");
        EPrint (InsertedCount 3 2)]).
Proof.
  intros Hload Htrino Hhost Hport Huser Hcatalog Hschema Hcsv Hacc Hanswer
    insert cell.
  split; [reflexivity|].
  set (params := {| cp_host := PStr "h"; cp_port := PInt 1;
                    cp_user := PStr "u"; cp_catalog := PStr "c";
                    cp_schema := PStr "s" |}).
  set (df := {| df_nrows := 3;
                df_columns := [(l1, [x1; x2; x3]); (l2, [y1; y2; y3])] |})
    in *.
  destruct (Hacc (Connect params) ltac:(discriminate) s1)
    as (r1 & s2 & Hconnect).
  destruct (Hacc Cursor ltac:(discriminate) s2) as (r2 & s3 & Hcursor).
  destruct (Hacc (Execute (metadata_query None "t") None)
              ltac:(discriminate) s3) as (r3 & s4 & Hquery).
  destruct (Hanswer s3 r3 s4 Hquery) as (s5 & Hfetch).
  destruct (load_rows_accepted W csv_path "t" ["a"; "b"] df s5 Hacc)
    as (bound & warning & df' & s6 & Hbind & Hconv & Hrows).
  injection Hbind as <- <-. injection Hconv as <-.
  exists s6.
  rewrite (insert_csv_to_iceberg_run W csv_path "t" config_path m params df
             s0 s1 log0 Hload Hcsv).
  2:{ rewrite Htrino. unfold connection_params, dict_get. simpl.
      rewrite Hhost, Hport, Huser, Hcatalog, Hschema. reflexivity. }
  unfold open_and_load.
  unfold bind at 1, call at 1. rewrite Hconnect.
  unfold bind at 1, call at 1. rewrite Hcursor.
  unfold bind at 1. rewrite get_table_columns_run.
  change (parse_table_name "t") with (Ok (None : option string, "t")).
  cbv beta iota zeta. rewrite Hquery, Hfetch.
  change (map_result first_cell [["a"]; ["b"]]) with (Ok ["a"; "b"]).
  cbv beta iota. unfold bind at 1, emit at 1. rewrite Hrows.
  reflexivity.
Qed.

Lemma sample_accepts (df : DataFrame) (catalog : list (list string))
    (c : db_call) :
  accepts (Sample.world df catalog) c.
Proof.
  intros s. destruct c as [| |query [values|]| | | |]; simpl; eauto.
Qed.

Lemma three_rows_two_columns_witness :
  let W := Sample.world Sample.three_rows [["a"]; ["b"]] in
  let insert :=
    PyStr.nl +:+ "        INSERT INTO t (" +:+
      dquote +:+ "a" +:+ dquote +:+ ", " +:+ dquote +:+ "b" +:+ dquote +:+
      ")" +:+ PyStr.nl +:+
    "        VALUES (?, ?)" +:+ PyStr.nl +:+
    "        " in
  message_text (InsertedCount 3 2) = Some "Inserted 3 rows with 2 columns" ∧
  ∃ s',
    insert_csv_to_iceberg W "purchases.csv" "t" "trino_config.yaml" [] =
      (Ok (), s',
       [EOpen "trino_config.yaml"] ++
       [EReadCsv "purchases.csv";
        ECall (Connect {| cp_host := PStr "h"; cp_port := PInt 1;
                          cp_user := PStr "u"; cp_catalog := PStr "c";
                          cp_schema := PStr "s" |});
        ECall Cursor;
        ECall (Execute (metadata_query None "t") None);
        ECall FetchAll;
        EPrint (UsingTableColumns ["a"; "b"]);
        ECall (Execute insert (Some [PInt 1; PStr "p"]));
        ECall (Execute insert (Some [PInt 2; PStr "q"]));
        ECall (Execute insert (Some [PInt 3; PStr "r"]));
        ECall Commit;
        ECall CursorClose;
        ECall ConnClose;
        EPrint (InsertedSuccessfully "purchases.csv" "t");
        EPrint (InsertedCount 3 2)]).
Proof.
  intros W.
  apply (three_rows_two_columns W "purchases.csv" "trino_config.yaml"
           (<["trino" := PDict Sample.trino_section]> ∅) Sample.trino_section
           (LName "x") (LName "y")
           (PInt 1) (PInt 2) (PInt 3) (PStr "p") (PStr "q") (PStr "r")
           [] [] [EOpen "trino_config.yaml"]);
    try reflexivity.
  - intros c _. apply sample_accepts.
  - intros s ignored s1 _. exists s1. reflexivity.
Defined.

Lemma bound_columns_min_witness :
  let W := Sample.world Sample.trades [] in
  ∃ bound log,
    bind_columns W ["id"; "name"; "date_opened"; "extra"] Sample.trades []
      = (Ok bound, [], log) ∧
    bound = ["id"; "name"; "date_opened"] ∧
    log = [EPrint (TruncationWarning 4 3)].
Proof.
  intros W.
  destruct (bound_columns_min W "purchases.csv" "t"
              ["id"; "name"; "date_opened"; "extra"] Sample.trades [])
    as (bound & log & Hbind & _ & Hcut & _).
  exists bound, log. split; [exact Hbind|].
  apply Hcut. unfold Pandas.ncols. simpl. lia.
Defined.

(** * Further properties of the run *)

(** ** The shape of the log *)

Lemma inserts_in_app (log1 log2 : list event) :
  inserts_in (log1 ++ log2) = inserts_in log1 + inserts_in log2.
Proof.
  induction log1 as [|e log1 IH]; [reflexivity|].
  destruct e as [| |[| |query [values|]| | | |]|]; simpl; by rewrite ?IH.
Qed.

Lemma inserts_in_insert_events (table_name : string)
    (table_columns : list string) (rows : list Series) :
  inserts_in (map (insert_event table_name table_columns) rows) = length rows.
Proof. induction rows as [|row rows IH]; simpl; by rewrite ?IH. Qed.

(** One round of the row loop on a positional row. *)
Lemma insert_rows_cons (W : World) (table_name : string)
    (table_columns : list string) (row : Series) (rows : list Series)
    (rows_inserted : nat) (s : DB W) :
  positional 0 row →
  insert_rows W table_name table_columns (row :: rows) rows_inserted s =
    match db_step W s
            (Execute (insert_query table_name table_columns)
               (Some (map (bound_cell row) (seq 0 (length table_columns)))))
    with
    | inl what =>
        (Raise (LibraryError what), s,
         [insert_event table_name table_columns row])
    | inr (_, s1) =>
        match insert_rows W table_name table_columns rows (S rows_inserted) s1
        with
        | (r, s2, log) =>
            (r, s2, insert_event table_name table_columns row :: log)
        end
    end.
Proof.
  intros Hrow. simpl. unfold bind at 1, lift at 1.
  rewrite (row_values_positional row _ Hrow).
  unfold bind at 1, call at 1.
  destruct (db_step W s _) as [what|[ignored s1]]; [done|].
  by destruct (insert_rows W table_name table_columns rows (S rows_inserted) s1)
    as [[r s2] log].
Qed.

(** The row loop sends the INSERTs of a prefix of the rows: all of them
    when it returns, and up to the one that raised otherwise. *)
Lemma insert_rows_shape (W : World) (table_name : string)
    (table_columns : list string) (rows : list Series) :
  Forall (positional 0) rows →
  ∀ (rows_inserted : nat) (s : DB W),
    ∃ sent,
      sent ≤ length rows ∧
      (insert_rows W table_name table_columns rows rows_inserted s).2
        = map (insert_event table_name table_columns) (take sent rows) ∧
      (((insert_rows W table_name table_columns rows rows_inserted s).1.1
          = Ok (rows_inserted + length rows) ∧ sent = length rows) ∨
       (∃ what,
          (insert_rows W table_name table_columns rows rows_inserted s).1.1
            = Raise (LibraryError what) ∧ 0 < sent)).
Proof.
  intros Hrows. induction Hrows as [|row rows Hrow Hrows IH]; intros k s.
  - exists 0. simpl. rewrite Nat.add_0_r. auto.
  - rewrite (insert_rows_cons W table_name table_columns row rows k s Hrow).
    destruct (db_step W s _) as [what|[ignored s1]].
    + exists 1. simpl. split; [lia|]. split; [by destruct rows|].
      right. exists what. split; [done|lia].
    + destruct (IH (S k) s1) as (sent & Hsent & Hlog & Hresult).
      destruct (insert_rows W table_name table_columns rows (S k) s1)
        as [[r s2] log] eqn:Hrest. simpl in *.
      exists (S sent). split; [lia|]. split; [by rewrite Hlog|].
      destruct Hresult as [[-> ->]|(what & -> & Hpos)].
      * left. split; [f_equal; lia|done].
      * right. exists what. split; [done|lia].
Qed.

(** Lines 109-115 stop at the first call that raises. *)
Lemma commit_and_report_shape (W : World) (csv_path table_name : string)
    (rows_inserted n_columns : nat) (s : DB W) :
  ((commit_and_report W csv_path table_name rows_inserted n_columns s).1.1
     = Ok () ∧
   (commit_and_report W csv_path table_name rows_inserted n_columns s).2
     = closing_events csv_path table_name rows_inserted n_columns) ∨
  (∃ what,
     (commit_and_report W csv_path table_name rows_inserted n_columns s).1.1
       = Raise (LibraryError what) ∧
     ((commit_and_report W csv_path table_name rows_inserted n_columns s).2
        = [ECall Commit] ∨
      (commit_and_report W csv_path table_name rows_inserted n_columns s).2
        = [ECall Commit; ECall CursorClose] ∨
      (commit_and_report W csv_path table_name rows_inserted n_columns s).2
        = [ECall Commit; ECall CursorClose; ECall ConnClose])).
Proof.
  unfold commit_and_report. run_steps.
  destruct (db_step W s Commit) as [what|[r1 s1]]; simpl; [right; eauto|].
  destruct (db_step W s1 CursorClose) as [what|[r2 s2]]; simpl;
    [right; eauto|].
  destruct (db_step W s2 ConnClose) as [what|[r3 s3]]; simpl;
    [right; eauto 6|].
  left. done.
Qed.

(** Lines 75-115 in three steps: the bound columns, the frame after the
    conversion of dates, and then the row loop followed, if it returns, by
    the commit and the closing lines. *)
Lemma load_rows_run (W : World) (csv_path table_name : string)
    (table_columns : list string) (df : DataFrame) (s : DB W) :
  ∃ bound warning df',
    bind_columns W table_columns df s = (Ok bound, s, warning) ∧
    convert_date_columns W 0 bound (Pandas.set_columns_range df) s
      = (Ok df', s, []) ∧
    load_rows W csv_path table_name table_columns df s =
      match insert_rows W table_name bound (Pandas.iterrows W df') 0 s with
      | (Ok n, s1, log1) =>
          match commit_and_report W csv_path table_name n (length bound) s1 with
          | (r, s2, log2) => (r, s2, warning ++ log1 ++ log2)
          end
      | (Raise e, s1, log1) => (Raise e, s1, warning ++ log1)
      end.
Proof.
  destruct (bind_columns_run W table_columns df s)
    as (bound & warning & Hbind & _).
  destruct (convert_date_columns_run W bound 0 (Pandas.set_columns_range df) s
              (set_columns_range_positional df))
    as (df' & Hconv & _).
  exists bound, warning, df'. split; [done|]. split; [done|].
  unfold load_rows. unfold bind at 1. rewrite Hbind.
  unfold bind at 1. rewrite Hconv. unfold bind at 1.
  destruct (insert_rows W table_name bound (Pandas.iterrows W df') 0 s)
    as [[[n|e] s1] log1]; [|done].
  destruct (commit_and_report W csv_path table_name n (length bound) s1)
    as [[r s2] log2]. done.
Qed.

Lemma elem_of_insert_events (table_name : string) (table_columns : list string)
    (rows : list Series) (e : event) :
  e ∈ map (insert_event table_name table_columns) rows →
  ∃ row, row ∈ rows ∧ e = insert_event table_name table_columns row.
Proof.
  intros H. apply list_elem_of_fmap in H as (row & -> & Hrow). eauto.
Qed.

(** The three ways lines 75-115 can end: everything sent, committed,
    closed and reported; an INSERT raised; or the commit or one of the two
    closes raised. *)
Lemma load_rows_outcomes_frame (W : World) (csv_path table_name : string)
    (table_columns : list string) (df : DataFrame) (s : DB W) :
  ∃ bound warning df', let rows := Pandas.iterrows W df' in
    bind_columns W table_columns df s = (Ok bound, s, warning) ∧
    convert_date_columns W 0 bound (Pandas.set_columns_range df) s
      = (Ok df', s, []) ∧
    length bound = min (length table_columns) (Pandas.ncols df) ∧
    (warning = [] ∨
     warning = [EPrint (TruncationWarning (length table_columns)
                          (Pandas.ncols df))]) ∧
    length rows = df_nrows df ∧
    (((load_rows W csv_path table_name table_columns df s).1.1 = Ok () ∧
      (load_rows W csv_path table_name table_columns df s).2 =
        warning ++ map (insert_event table_name bound) rows ++
        closing_events csv_path table_name (df_nrows df) (length bound)) ∨
     (∃ what sent,
        (load_rows W csv_path table_name table_columns df s).1.1
          = Raise (LibraryError what) ∧
        0 < sent ≤ length rows ∧
        (load_rows W csv_path table_name table_columns df s).2 =
          warning ++ map (insert_event table_name bound) (take sent rows)) ∨
     (∃ what closing,
        (load_rows W csv_path table_name table_columns df s).1.1
          = Raise (LibraryError what) ∧
        (load_rows W csv_path table_name table_columns df s).2 =
          warning ++ map (insert_event table_name bound) rows ++ closing ∧
        (closing = [ECall Commit] ∨
         closing = [ECall Commit; ECall CursorClose] ∨
         closing = [ECall Commit; ECall CursorClose; ECall ConnClose]))).
Proof.
  destruct (load_rows_run W csv_path table_name table_columns df s)
    as (bound & warning & df' & Hbind & Hconv & ->).
  destruct (bind_columns_run W table_columns df s)
    as (bound0 & warning0 & Hbind0 & Hmin & Hcut & Hfull).
  rewrite Hbind in Hbind0. injection Hbind0 as <- <-.
  destruct (convert_date_columns_run W bound 0 (Pandas.set_columns_range df) s
              (set_columns_range_positional df))
    as (df0 & Hconv0 & Hnrows & _ & Hpos & _).
  rewrite Hconv in Hconv0. injection Hconv0 as <-.
  assert (Forall (positional 0) (Pandas.iterrows W df')) as Hrows.
  { apply Forall_forall. intros row Hrow.
    by destruct (iterrows_rows W df' row Hpos Hrow). }
  assert (length (Pandas.iterrows W df') = df_nrows df) as Hlen.
  { unfold Pandas.iterrows. by rewrite length_map, length_seq, Hnrows. }
  exists bound, warning, df'. split; [done|]. split; [done|].
  split; [done|]. split.
  { destruct (decide (Pandas.ncols df < length table_columns)) as [Hlt|Hge].
    - right. by destruct (Hcut Hlt).
    - left. apply Hfull. lia. }
  split; [done|].
  destruct (insert_rows_shape W table_name bound (Pandas.iterrows W df') Hrows 0 s)
    as (sent & Hsent & Hlog & Hresult).
  destruct (insert_rows W table_name bound (Pandas.iterrows W df') 0 s)
    as [[r s1] log1]. simpl in Hlog, Hresult. subst log1.
  destruct Hresult as [[-> ->]|(what & -> & Hpos1)].
  - rewrite firstn_all. simpl. rewrite Hlen.
    destruct (commit_and_report_shape W csv_path table_name (df_nrows df)
                (length bound) s1) as [[Hok Hclosing]|(what & Hraise & Hclosing)];
      destruct (commit_and_report W csv_path table_name (df_nrows df)
                  (length bound) s1) as [[r2 s2] log2];
      simpl in *; subst.
    + left. done.
    + right. right. exists what, log2. done.
  - right. left. exists what, sent. simpl. split; [done|]. split; [lia|done].
Qed.

Lemma load_rows_outcomes (W : World) (csv_path table_name : string)
    (table_columns : list string) (df : DataFrame) (s : DB W) :
  ∃ bound warning rows,
    length bound = min (length table_columns) (Pandas.ncols df) ∧
    (warning = [] ∨
     warning = [EPrint (TruncationWarning (length table_columns)
                          (Pandas.ncols df))]) ∧
    length rows = df_nrows df ∧
    (((load_rows W csv_path table_name table_columns df s).1.1 = Ok () ∧
      (load_rows W csv_path table_name table_columns df s).2 =
        warning ++ map (insert_event table_name bound) rows ++
        closing_events csv_path table_name (df_nrows df) (length bound)) ∨
     (∃ what sent,
        (load_rows W csv_path table_name table_columns df s).1.1
          = Raise (LibraryError what) ∧
        0 < sent ≤ length rows ∧
        (load_rows W csv_path table_name table_columns df s).2 =
          warning ++ map (insert_event table_name bound) (take sent rows)) ∨
     (∃ what closing,
        (load_rows W csv_path table_name table_columns df s).1.1
          = Raise (LibraryError what) ∧
        (load_rows W csv_path table_name table_columns df s).2 =
          warning ++ map (insert_event table_name bound) rows ++ closing ∧
        (closing = [ECall Commit] ∨
         closing = [ECall Commit; ECall CursorClose] ∨
         closing = [ECall Commit; ECall CursorClose; ECall ConnClose]))).
Proof.
  destruct (load_rows_outcomes_frame W csv_path table_name table_columns df s)
    as (bound & warning & df' & _ & _ & H).
  by exists bound, warning, (Pandas.iterrows W df').
Qed.

Lemma warning_has_no_call (n_table n_csv : nat) (warning : list event)
    (c : db_call) :
  warning = [] ∨ warning = [EPrint (TruncationWarning n_table n_csv)] →
  inserts_in warning = 0 ∧ ECall c ∉ warning.
Proof.
  intros [-> | ->]; (split; [done|]); intros H; revert H; in_listed.
Qed.

Lemma insert_events_no_other_call (table_name : string)
    (table_columns : list string) (rows : list Series) (c : db_call) :
  (∀ query values, c ≠ Execute query (Some values)) →
  ECall c ∉ map (insert_event table_name table_columns) rows.
Proof.
  intros Hc H. apply elem_of_insert_events in H as (row & _ & [= H]).
  by eapply Hc.
Qed.

(** The commit comes at most once, and only once an INSERT has been sent
    for every row of the frame; no INSERT follows it. *)
Theorem commit_only_after_every_row (W : World) (csv_path table_name : string)
    (table_columns : list string) (df : DataFrame) (s : DB W) :
  ECall Commit ∈ (load_rows W csv_path table_name table_columns df s).2 →
  ∃ front after,
    (load_rows W csv_path table_name table_columns df s).2
      = front ++ ECall Commit :: after ∧
    inserts_in front = df_nrows df ∧
    inserts_in after = 0 ∧
    (ECall Commit ∉ front) ∧
    ECall Commit ∉ after.
Proof.
  destruct (load_rows_outcomes W csv_path table_name table_columns df s)
    as (bound & warning & rows & _ & Hwarning & Hlen & Hcases).
  destruct (warning_has_no_call _ _ _ Commit Hwarning) as [Hcount Hnot].
  pose proof (insert_events_no_other_call table_name bound rows Commit
                ltac:(discriminate)) as Hrows.
  assert (inserts_in (warning ++ map (insert_event table_name bound) rows)
          = df_nrows df) as Hfront.
  { by rewrite inserts_in_app, inserts_in_insert_events, Hcount, Hlen. }
  assert (ECall Commit ∉ warning ++ map (insert_event table_name bound) rows)
    as Hnotfront.
  { intros H. apply elem_of_app in H as [H|H]; [by apply Hnot|by apply Hrows]. }
  destruct Hcases as [[_ ->]|[(what & sent & _ & _ & ->)|(what & closing & _ & -> & Hclosing)]].
  - intros _. eexists _, _. rewrite app_assoc. split; [reflexivity|].
    split; [done|]. split; [done|]. split; [done|]. in_listed.
  - intros H. apply elem_of_app in H as [H|H]; [by destruct Hnot|].
    by destruct (insert_events_no_other_call table_name bound (take sent rows)
                   Commit ltac:(discriminate)).
  - intros _. rewrite app_assoc.
    destruct Hclosing as [-> | [-> | ->]]; eexists _, _;
      (split; [reflexivity|]); (split; [done|]); (split; [done|]);
      (split; [done|]); in_listed.
Qed.

(** The closing count is printed only by a run that returns, after the
    commit and both closes; it is the number of rows of the frame and the
    number of bound columns, and one INSERT was sent per row. *)
Theorem reported_count_is_the_frame (W : World) (csv_path table_name : string)
    (table_columns : list string) (df : DataFrame) (s : DB W)
    (rows_inserted n_columns : nat) :
  EPrint (InsertedCount rows_inserted n_columns)
    ∈ (load_rows W csv_path table_name table_columns df s).2 →
  (load_rows W csv_path table_name table_columns df s).1.1 = Ok () ∧
  rows_inserted = df_nrows df ∧
  n_columns = min (length table_columns) (Pandas.ncols df) ∧
  inserts_in (load_rows W csv_path table_name table_columns df s).2
    = df_nrows df ∧
  ∃ front,
    (load_rows W csv_path table_name table_columns df s).2 =
      front ++ [ECall Commit; ECall CursorClose; ECall ConnClose;
                EPrint (InsertedSuccessfully csv_path table_name);
                EPrint (InsertedCount rows_inserted n_columns)].
Proof.
  destruct (load_rows_outcomes W csv_path table_name table_columns df s)
    as (bound & warning & rows & Hmin & Hwarning & Hlen & Hcases).
  assert (∀ rows', EPrint (InsertedCount rows_inserted n_columns)
            ∉ warning ++ map (insert_event table_name bound) rows') as Hfront.
  { intros rows' H. apply elem_of_app in H as [H|H].
    - destruct Hwarning as [-> | ->]; revert H; in_listed.
    - by apply elem_of_insert_events in H as (row & _ & [=]). }
  destruct Hcases as [[Hok ->]|[(what & sent & _ & _ & ->)|(what & closing & _ & -> & Hclosing)]].
  - intros H. rewrite app_assoc in H. apply elem_of_app in H as [H|H];
      [by destruct (Hfront rows)|].
    assert (rows_inserted = df_nrows df ∧ n_columns = length bound)
      as [-> ->].
    { revert H. unfold closing_events.
      intros H. repeat (apply elem_of_cons in H as [H|H]; [try discriminate|]).
      - by injection H as -> ->.
      - by apply elem_of_nil in H. }
    split; [done|]. split; [done|]. split; [done|]. split.
    + rewrite !inserts_in_app, inserts_in_insert_events, Hlen.
      destruct (warning_has_no_call _ _ _ Commit Hwarning) as [-> _].
      simpl. lia.
    + exists (warning ++ map (insert_event table_name bound) rows).
      by rewrite app_assoc.
  - intros H. by destruct (Hfront (take sent rows)).
  - intros H. rewrite app_assoc in H. apply elem_of_app in H as [H|H];
      [by destruct (Hfront rows)|].
    destruct Hclosing as [-> | [-> | ->]]; revert H; in_listed.
Qed.

(** When lines 75-115 raise, it is a database call that raised, and it is
    the last event: nothing is rolled back, the success line is not
    printed, and the connection is not closed (unless the close itself is
    what raised). *)
Theorem failure_leaves_connection_open (W : World)
    (csv_path table_name : string) (table_columns : list string)
    (df : DataFrame) (s : DB W) (e : exn) :
  (load_rows W csv_path table_name table_columns df s).1.1 = Raise e →
  ∃ what front c,
    e = LibraryError what ∧
    (load_rows W csv_path table_name table_columns df s).2
      = front ++ [ECall c] ∧
    (ECall ConnClose ∉ front) ∧
    EPrint (InsertedSuccessfully csv_path table_name)
      ∉ (load_rows W csv_path table_name table_columns df s).2.
Proof.
  destruct (load_rows_outcomes W csv_path table_name table_columns df s)
    as (bound & warning & rows & _ & Hwarning & Hlen & Hcases).
  assert (∀ rows', ECall ConnClose
            ∉ warning ++ map (insert_event table_name bound) rows') as Hclose.
  { intros rows' H. apply elem_of_app in H as [H|H].
    - by destruct (warning_has_no_call _ _ _ ConnClose Hwarning).
    - by destruct (insert_events_no_other_call table_name bound rows'
                     ConnClose ltac:(discriminate)). }
  assert (∀ rows', EPrint (InsertedSuccessfully csv_path table_name)
            ∉ warning ++ map (insert_event table_name bound) rows') as Hprint.
  { intros rows' H. apply elem_of_app in H as [H|H].
    - destruct Hwarning as [-> | ->]; revert H; in_listed.
    - by apply elem_of_insert_events in H as (row & _ & [=]). }
  destruct Hcases as [[-> _]|[(what & sent & -> & Hsent & ->)|(what & closing & -> & -> & Hclosing)]].
  - discriminate.
  - intros [= <-].
    destruct sent as [|sent]; [lia|].
    destruct (lookup_lt_is_Some_2 rows sent) as [row Hrow]; [lia|].
    exists what, (warning ++ map (insert_event table_name bound)
                               (take sent rows)).
    eexists. split; [done|]. split.
    { rewrite (take_S_r rows sent row Hrow), map_app, app_assoc.
      reflexivity. }
    split; [apply Hclose|]. apply Hprint.
  - intros [= <-]. exists what.
    destruct Hclosing as [-> | [-> | ->]].
    + exists (warning ++ map (insert_event table_name bound) rows), Commit.
      split; [done|]. split; [by rewrite app_assoc|]. split; [apply Hclose|].
      intros H. apply elem_of_app in H as [H|H];
        [|apply elem_of_app in H as [H|H]].
      * destruct Hwarning as [-> | ->]; revert H; in_listed.
      * by apply elem_of_insert_events in H as (row & _ & [=]).
      * revert H. in_listed.
    + exists (warning ++ map (insert_event table_name bound) rows
              ++ [ECall Commit]), CursorClose.
      split; [done|]. split; [by rewrite <- !app_assoc|]. split.
      * rewrite app_assoc. intros H. apply elem_of_app in H as [H|H];
          [by destruct (Hclose rows)|]. revert H. in_listed.
      * intros H. apply elem_of_app in H as [H|H];
          [|apply elem_of_app in H as [H|H]].
        -- destruct Hwarning as [-> | ->]; revert H; in_listed.
        -- by apply elem_of_insert_events in H as (row & _ & [=]).
        -- revert H. in_listed.
    + exists (warning ++ map (insert_event table_name bound) rows
              ++ [ECall Commit; ECall CursorClose]), ConnClose.
      split; [done|]. split; [by rewrite <- !app_assoc|]. split.
      * rewrite app_assoc. intros H. apply elem_of_app in H as [H|H];
          [by destruct (Hclose rows)|]. revert H. in_listed.
      * intros H. apply elem_of_app in H as [H|H];
          [|apply elem_of_app in H as [H|H]].
        -- destruct Hwarning as [-> | ->]; revert H; in_listed.
        -- by apply elem_of_insert_events in H as (row & _ & [=]).
        -- revert H. in_listed.
Qed.

Lemma commit_only_after_every_row_witness :
  let W := Sample.world Sample.three_rows [] in
  ∃ front after,
    (load_rows W "purchases.csv" "t" ["a"; "b"] Sample.three_rows []).2
      = front ++ ECall Commit :: after ∧
    inserts_in front = 3 ∧
    inserts_in after = 0 ∧
    (ECall Commit ∉ front) ∧
    (ECall Commit ∉ after).
Proof.
  intros W.
  apply (commit_only_after_every_row W "purchases.csv" "t" ["a"; "b"]
           Sample.three_rows []).
  vm_compute. repeat first [apply list_elem_of_here | apply list_elem_of_further].
Defined.

Lemma reported_count_is_the_frame_witness :
  let W := Sample.world Sample.trades [] in
  (load_rows W "purchases.csv" "t" ["id"; "name"; "qty"; "extra"]
     Sample.trades []).1.1 = Ok () ∧
  2 = df_nrows Sample.trades ∧
  3 = min 4 (Pandas.ncols Sample.trades).
Proof.
  intros W.
  destruct (reported_count_is_the_frame W "purchases.csv" "t"
              ["id"; "name"; "qty"; "extra"] Sample.trades [] 2 3)
    as (Hok & Hrows & Hcolumns & _).
  - vm_compute.
    repeat first [apply list_elem_of_here | apply list_elem_of_further].
  - split; [exact Hok|]. split; [exact Hrows|exact Hcolumns].
Defined.

Lemma failure_leaves_connection_open_witness :
  let W := Sample.strict_world Sample.three_rows [] 1 in
  ∃ what front c,
    LibraryError "TrinoUserError" = LibraryError what ∧
    (load_rows W "purchases.csv" "t" ["a"; "b"] Sample.three_rows []).2
      = front ++ [ECall c] ∧
    (ECall ConnClose ∉ front) ∧
    (EPrint (InsertedSuccessfully "purchases.csv" "t")
       ∉ (load_rows W "purchases.csv" "t" ["a"; "b"] Sample.three_rows []).2).
Proof.
  intros W.
  apply (failure_leaves_connection_open W "purchases.csv" "t" ["a"; "b"]
           Sample.three_rows [] (LibraryError "TrinoUserError")).
  reflexivity.
Defined.

(** ** What is bound, and where it comes from *)

Lemma bind_columns_take (W : World) (table_columns : list string)
    (df : DataFrame) (s : DB W) (bound : list string) (warning : list event) :
  bind_columns W table_columns df s = (Ok bound, s, warning) →
  bound = take (Pandas.ncols df) table_columns.
Proof.
  destruct (bind_columns_run W table_columns df s)
    as (bound0 & warning0 & -> & _ & Hcut & Hfull).
  intros [= <- <-].
  destruct (decide (Pandas.ncols df < length table_columns)) as [Hlt|Hge].
  - by destruct (Hcut Hlt).
  - destruct Hfull as [-> _]; [lia|]. rewrite take_ge; [done|lia].
Qed.

Lemma imap_cells_ext {A B} (l1 : list (label * A)) :
  ∀ (f : nat → A → B) (l2 : list (label * A)),
    map snd l1 = map snd l2 →
    imap (λ i c, f i c.2) l1 = imap (λ i c, f i c.2) l2.
Proof.
  induction l1 as [|c1 l1 IH]; intros f [|c2 l2] Hcells; try discriminate;
    [done|].
  simpl in Hcells. injection Hcells as Hhead Htail. simpl.
  rewrite Hhead. f_equal. exact (IH (λ i, f (S i)) l2 Htail).
Qed.

(** The header of the CSV is never looked at: two frames with the same
    cells under different column labels give the same run of lines
    75-115. *)
Theorem header_is_ignored (W : World) (csv_path table_name : string)
    (table_columns : list string) (df1 df2 : DataFrame) (s : DB W) :
  df_nrows df1 = df_nrows df2 →
  map snd (df_columns df1) = map snd (df_columns df2) →
  load_rows W csv_path table_name table_columns df1 s
    = load_rows W csv_path table_name table_columns df2 s.
Proof.
  intros Hnrows Hcells.
  assert (Pandas.ncols df1 = Pandas.ncols df2) as Hncols.
  { unfold Pandas.ncols. by rewrite <- (length_map snd), Hcells, length_map. }
  assert (Pandas.set_columns_range df1 = Pandas.set_columns_range df2) as Hrange.
  { unfold Pandas.set_columns_range. rewrite Hnrows. f_equal.
    exact (imap_cells_ext (df_columns df1) (λ i x, (LPos i, x))
             (df_columns df2) Hcells). }
  unfold load_rows, bind_columns. by rewrite Hncols, Hrange.
Qed.

Lemma header_is_ignored_witness :
  let W := Sample.world Sample.three_rows [] in
  load_rows W "purchases.csv" "t" ["a"; "b"] Sample.three_rows []
    = load_rows W "purchases.csv" "t" ["a"; "b"]
        {| df_nrows := 3;
           df_columns := [(LName "b", [PInt 1; PInt 2; PInt 3]);
                          (LName "a", [PStr "p"; PStr "q"; PStr "r"])] |} [].
Proof.
  intros W. apply (header_is_ignored W); reflexivity.
Defined.

(** ** The run from start to end *)

(** ** What a malformed configuration does *)

(** The loader opens nothing but the configuration file, once at most. *)
Lemma load_config_log (W : World) (config_path : string) (s : DB W) :
  (load_config W config_path s).2 = [] ∨
  (load_config W config_path s).2 = [EOpen config_path].
Proof.
  unfold load_config.
  destruct (path_exists W config_path); simpl; [|by left].
  destruct (_ || _).
  { right. run_steps. destruct (open_read W config_path) as [what|file];
      simpl; [done|]. by destruct (yaml_safe_load W file). }
  destruct (String.eqb _ _); [|by left].
  right. run_steps. destruct (open_read W config_path) as [what|file];
    simpl; [done|]. by destruct (json_load W file).
Qed.

(** Lines 55-68, case by case. *)
Lemma insert_csv_to_iceberg_cases (W : World)
    (csv_path table_name config_path : string) (s : DB W) :
  insert_csv_to_iceberg W csv_path table_name config_path s =
  match load_config W config_path s with
  | (Raise e, s1, log0) => (Raise e, s1, log0)
  | (Ok config, s1, log0) =>
      match dict_get config "trino" (PDict ∅) with
      | Raise e => (Raise e, s1, log0)
      | Ok trino_config =>
          match read_csv W csv_path with
          | inl what =>
              (Raise (LibraryError what), s1, log0 ++ [EReadCsv csv_path])
          | inr df =>
              match connection_params trino_config with
              | Raise e => (Raise e, s1, log0 ++ [EReadCsv csv_path])
              | Ok params =>
                  match open_and_load W csv_path table_name params df s1 with
                  | (r, s', log) => (r, s', log0 ++ EReadCsv csv_path :: log)
                  end
              end
          end
      end
  end.
Proof.
  unfold insert_csv_to_iceberg. unfold bind at 1.
  destruct (load_config W config_path s) as [[[config|e] s1] log0]; [|done].
  unfold bind at 1, lift at 1.
  destruct (dict_get config "trino" (PDict ∅)) as [trino_config|e];
    [|by rewrite app_nil_r].
  unfold bind at 1, emit at 1. unfold bind at 1, lift at 1.
  destruct (read_csv W csv_path) as [what|df]; simpl of_lib; cbv iota; [done|].
  unfold bind at 1, lift at 1.
  destruct (connection_params trino_config) as [params|e]; [|done].
  by destruct (open_and_load W csv_path table_name params df s1)
    as [[r s'] log].
Qed.

Lemma connection_params_not_a_mapping (v : pyobj) :
  (∀ t, v ≠ PDict t) →
  connection_params v =
    Raise (AttributeError ("'" +:+ type_name v +:+
                           "' object has no attribute 'get'")).
Proof. intros Hv. destruct v; try done. by destruct (Hv m). Qed.

(** A configuration whose top level is not a mapping (an empty YAML file
    loads to [None], a JSON array to a list) stops the run at line 56 with
    an [AttributeError]: the CSV is not read and the database is not
    called. *)
Theorem config_not_a_mapping (W : World)
    (csv_path table_name config_path : string) (config : pyobj)
    (s s1 : DB W) (log0 : list event) :
  load_config W config_path s = (Ok config, s1, log0) →
  (∀ m, config ≠ PDict m) →
  insert_csv_to_iceberg W csv_path table_name config_path s =
    (Raise (AttributeError ("'" +:+ type_name config +:+
                            "' object has no attribute 'get'")), s1, log0).
Proof.
  intros Hload Hconfig. rewrite insert_csv_to_iceberg_cases, Hload.
  destruct config; try done. by destruct (Hconfig m).
Qed.

(** A [trino] key that is present but holds no mapping (as [trino:] with
    nothing under it does in YAML) is not replaced by the defaults: the
    CSV is read, then line 63 raises an [AttributeError], and no
    connection is opened. *)
Theorem trino_section_not_a_mapping (W : World)
    (csv_path table_name config_path : string) (m : gmap string pyobj)
    (section : pyobj) (df : DataFrame) (s s1 : DB W) (log0 : list event) :
  load_config W config_path s = (Ok (PDict m), s1, log0) →
  m !! "trino" = Some section →
  (∀ t, section ≠ PDict t) →
  read_csv W csv_path = inr df →
  insert_csv_to_iceberg W csv_path table_name config_path s =
    (Raise (AttributeError ("'" +:+ type_name section +:+
                            "' object has no attribute 'get'")),
     s1, log0 ++ [EReadCsv csv_path]).
Proof.
  intros Hload Hkey Hsection Hcsv.
  rewrite insert_csv_to_iceberg_cases, Hload. simpl dict_get.
  rewrite Hkey, Hcsv. simpl default.
  by rewrite (connection_params_not_a_mapping section Hsection).
Qed.

(** The database is not called before both files are read: if the log
    holds a database call at all, the configuration loaded to a mapping,
    the CSV was read, all five parameters were found, and the first call
    is the connect with them. *)
Theorem no_database_call_before_inputs (W : World)
    (csv_path table_name config_path : string) (s : DB W) (c : db_call) :
  ECall c ∈ (insert_csv_to_iceberg W csv_path table_name config_path s).2 →
  ∃ m params df s1 log0 rest,
    load_config W config_path s = (Ok (PDict m), s1, log0) ∧
    read_csv W csv_path = inr df ∧
    connection_params (default (PDict ∅) (m !! "trino")) = Ok params ∧
    (∀ c', ECall c' ∉ log0) ∧
    (insert_csv_to_iceberg W csv_path table_name config_path s).2 =
      log0 ++ EReadCsv csv_path :: ECall (Connect params) :: rest.
Proof.
  rewrite insert_csv_to_iceberg_cases.
  pose proof (load_config_log W config_path s) as Hlog0.
  destruct (load_config W config_path s) as [[[config|e] s1] log0] eqn:Hload;
    simpl in Hlog0.
  2:{ simpl. destruct Hlog0 as [-> | ->]; in_listed. }
  assert (∀ c', ECall c' ∉ log0) as Hnocall.
  { intros c' H. destruct Hlog0 as [-> | ->]; revert H; in_listed. }
  assert (∀ c', ECall c' ∉ log0 ++ [EReadCsv csv_path]) as Hnocall'.
  { intros c' H. apply elem_of_app in H as [H|H]; [by apply (Hnocall c')|].
    revert H. in_listed. }
  destruct config as [| | | | | | | |m];
    try (simpl; intros H; by destruct (Hnocall c)).
  simpl dict_get. cbv iota.
  destruct (read_csv W csv_path) as [what|df];
    [simpl; intros H; by destruct (Hnocall' c)|].
  destruct (connection_params (default (PDict ∅) (m !! "trino")))
    as [params|e] eqn:Hparams;
    [|simpl; intros H; by destruct (Hnocall' c)].
  destruct (open_and_load_connects W csv_path table_name params df s1)
    as (r & s' & rest & ->). simpl. intros _.
  by exists m, params, df, s1, log0, rest.
Qed.

Lemma config_not_a_mapping_witness :
  insert_csv_to_iceberg (Sample.config_world PNone Sample.three_rows [])
    "purchases.csv" "t" "trino_config.yaml" [] =
    (Raise (AttributeError "'NoneType' object has no attribute 'get'"),
     [], [EOpen "trino_config.yaml"]).
Proof.
  apply (config_not_a_mapping (Sample.config_world PNone Sample.three_rows [])
           "purchases.csv" "t" "trino_config.yaml" PNone [] []
           [EOpen "trino_config.yaml"]).
  - reflexivity.
  - discriminate.
Defined.

Lemma trino_section_not_a_mapping_witness :
  insert_csv_to_iceberg
    (Sample.config_world (PDict (<["trino" := PNone]> ∅)) Sample.three_rows [])
    "purchases.csv" "t" "trino_config.yaml" [] =
    (Raise (AttributeError "'NoneType' object has no attribute 'get'"),
     [], [EOpen "trino_config.yaml"] ++ [EReadCsv "purchases.csv"]).
Proof.
  apply (trino_section_not_a_mapping
           (Sample.config_world (PDict (<["trino" := PNone]> ∅))
              Sample.three_rows [])
           "purchases.csv" "t" "trino_config.yaml" (<["trino" := PNone]> ∅)
           PNone Sample.three_rows [] [] [EOpen "trino_config.yaml"]).
  - reflexivity.
  - reflexivity.
  - discriminate.
  - reflexivity.
Defined.

Lemma no_database_call_before_inputs_witness :
  let W := Sample.world Sample.three_rows [["a"]; ["b"]] in
  ∃ m params df s1 log0 rest,
    load_config W "trino_config.yaml" [] = (Ok (PDict m), s1, log0) ∧
    read_csv W "purchases.csv" = inr df ∧
    connection_params (default (PDict ∅) (m !! "trino")) = Ok params ∧
    (∀ c', ECall c' ∉ log0) ∧
    (insert_csv_to_iceberg W "purchases.csv" "t" "trino_config.yaml" []).2 =
      log0 ++ EReadCsv "purchases.csv" :: ECall (Connect params) :: rest.
Proof.
  intros W.
  apply (no_database_call_before_inputs W "purchases.csv" "t"
           "trino_config.yaml" [] Commit).
  vm_compute. repeat first [apply list_elem_of_here | apply list_elem_of_further].
Defined.

(** ** Table names with more or fewer parts than two *)

Lemma split_length (c : ascii) (s : string) :
  length (PyStr.split c s) = S (Spec.count_char c s).
Proof.
  induction s as [|a s IH]; [reflexivity|]. simpl.
  destruct (Ascii.eqb a c); simpl; [by rewrite IH|].
  destruct (PyStr.split c s) as [|hd tl]; simpl in *; [discriminate|done].
Qed.

Lemma count_char_has_char (c : ascii) (s : string) :
  0 < Spec.count_char c s → PyStr.has_char c s = true.
Proof.
  induction s as [|a s IH]; simpl; [lia|].
  destruct (Ascii.eqb a c); simpl; [done|]. exact IH.
Qed.

Lemma has_char_count_char (c : ascii) (s : string) :
  PyStr.has_char c s = false → Spec.count_char c s = 0.
Proof.
  induction s as [|a s IH]; simpl; [done|].
  destruct (Ascii.eqb a c); simpl; [discriminate|]. exact IH.
Qed.

(** A table name with two dots or more (such as [catalog.schema.table])
    is refused by the unpacking of line 29, with its own [ValueError],
    before any query is sent. *)
Theorem three_part_name_raises (W : World) (table_name : string) (s : DB W) :
  2 ≤ Spec.count_char "." table_name →
  get_table_columns W table_name s =
    (Raise (ValueError "too many values to unpack (expected 2)"), s, []).
Proof.
  intros Hdots. rewrite get_table_columns_run. unfold parse_table_name.
  rewrite count_char_has_char by lia.
  pose proof (split_length "." table_name) as Hlen.
  destruct (PyStr.split "." table_name) as [|a [|b [|c l]]]; simpl in Hlen;
    try lia.
  reflexivity.
Qed.

Lemma three_part_name_raises_witness :
  get_table_columns (Sample.world Sample.three_rows [["a"]; ["b"]])
    "iceberg.sales.orders" [] =
    (Raise (ValueError "too many values to unpack (expected 2)"), [], []).
Proof.
  apply (three_part_name_raises (Sample.world Sample.three_rows [["a"]; ["b"]])
           "iceberg.sales.orders" []).
  simpl. lia.
Defined.

(** A name that starts with its only dot has an empty schema part, and an
    empty schema is no schema: the discoverer sends the same query as for
    the name without the dot, without a schema filter, and returns the
    same columns. *)
Theorem leading_dot_is_no_schema (W : World) (table : string) (s : DB W) :
  PyStr.has_char "." table = false →
  parse_table_name ("." +:+ table) = Ok (Some EmptyString, table) ∧
  metadata_query (Some EmptyString) table = metadata_query None table ∧
  (get_table_columns W ("." +:+ table) s).2 = (get_table_columns W table s).2 ∧
  (get_table_columns W ("." +:+ table) s).1.2
    = (get_table_columns W table s).1.2 ∧
  ∀ columns,
    (get_table_columns W ("." +:+ table) s).1.1 = Ok columns ↔
    (get_table_columns W table s).1.1 = Ok columns.
Proof.
  intros Hnodot.
  assert (parse_table_name ("." +:+ table) = Ok (Some EmptyString, table))
    as Hparse.
  { apply has_char_count_char in Hnodot as Hcount.
    destruct (count_char_zero "." table Hcount) as (_ & Hsplit & _).
    unfold parse_table_name.
    change (PyStr.has_char "." ("." +:+ table)) with true.
    change (PyStr.split "." ("." +:+ table))
      with (EmptyString :: PyStr.split "." table).
    by rewrite Hsplit. }
  assert (parse_table_name table = Ok (None, table)) as Hplain.
  { unfold parse_table_name. by rewrite Hnodot. }
  split; [done|]. split; [done|].
  rewrite !get_table_columns_run, Hparse, Hplain.
  change (metadata_query (Some EmptyString) table)
    with (metadata_query None table).
  cbv zeta.
  destruct (db_step W s _) as [what|[ignored s1]]; [by repeat split|].
  destruct (db_step W s1 FetchAll) as [what|[rows s2]]; [by repeat split|].
  destruct (map_result first_cell rows) as [[|column columns]|e];
    by repeat split.
Qed.

Lemma leading_dot_is_no_schema_witness :
  let W := Sample.world Sample.three_rows [["a"]; ["b"]] in
  parse_table_name ".orders" = Ok (Some EmptyString, "orders") ∧
  metadata_query (Some EmptyString) "orders" = metadata_query None "orders" ∧
  (get_table_columns W ".orders" []).2 = (get_table_columns W "orders" []).2 ∧
  (get_table_columns W ".orders" []).1.2
    = (get_table_columns W "orders" []).1.2 ∧
  ∀ columns,
    (get_table_columns W ".orders" []).1.1 = Ok columns ↔
    (get_table_columns W "orders" []).1.1 = Ok columns.
Proof.
  intros W. apply (leading_dot_is_no_schema W "orders" []). reflexivity.
Defined.

(** ** What the loader returns, and for which paths *)

(** The loader returns a value only for an existing file with one of the
    three extensions, and the value is what the parser of that extension
    read from the file's content; the file was opened once and the
    database was not touched. *)
Theorem load_config_returns_what_was_parsed (W : World) (config_path : string)
    (s : DB W) (config : pyobj) :
  (load_config W config_path s).1.1 = Ok config →
  path_exists W config_path = true ∧
  (∃ content,
     open_read W config_path = inr content ∧
     (((file_ext_of config_path = ".yaml" ∨ file_ext_of config_path = ".yml") ∧
       yaml_safe_load W content = inr config) ∨
      (file_ext_of config_path = ".json" ∧
       json_load W content = inr config))) ∧
  (load_config W config_path s).2 = [EOpen config_path] ∧
  (load_config W config_path s).1.2 = s.
Proof.
  unfold load_config.
  destruct (path_exists W config_path); simpl; [|discriminate].
  destruct (String.eqb_spec (file_ext_of config_path) ".yaml") as [Hyaml|_];
    [|destruct (String.eqb_spec (file_ext_of config_path) ".yml") as [Hyml|_]];
    simpl.
  - run_steps. destruct (open_read W config_path) as [what|content]; simpl;
      [discriminate|].
    destruct (yaml_safe_load W content) as [what|d] eqn:Hparse; simpl;
      [discriminate|].
    intros [= ->]. split; [done|]. split; [|done]. exists content. auto.
  - run_steps. destruct (open_read W config_path) as [what|content]; simpl;
      [discriminate|].
    destruct (yaml_safe_load W content) as [what|d] eqn:Hparse; simpl;
      [discriminate|].
    intros [= ->]. split; [done|]. split; [|done]. exists content. auto.
  - destruct (String.eqb_spec (file_ext_of config_path) ".json") as [Hjson|_];
      [|discriminate].
    run_steps. destruct (open_read W config_path) as [what|content]; simpl;
      [discriminate|].
    destruct (json_load W content) as [what|d] eqn:Hparse; simpl;
      [discriminate|].
    intros [= ->]. split; [done|]. split; [|done]. exists content. auto.
Qed.

Lemma load_config_returns_what_was_parsed_witness :
  let W := Sample.world Sample.three_rows [] in
  path_exists W "conf/Trino.JSON" = true ∧
  (∃ content,
     open_read W "conf/Trino.JSON" = inr content ∧
     (((file_ext_of "conf/Trino.JSON" = ".yaml" ∨
        file_ext_of "conf/Trino.JSON" = ".yml") ∧
       yaml_safe_load W content = inr Sample.config) ∨
      (file_ext_of "conf/Trino.JSON" = ".json" ∧
       json_load W content = inr Sample.config))) ∧
  (load_config W "conf/Trino.JSON" []).2 = [EOpen "conf/Trino.JSON"] ∧
  (load_config W "conf/Trino.JSON" []).1.2 = [].
Proof.
  intros W.
  apply (load_config_returns_what_was_parsed W "conf/Trino.JSON" []
           Sample.config).
  reflexivity.
Defined.

Lemma append_cons (c : ascii) (a b : string) :
  String c a +:+ b = String c (a +:+ b).
Proof. reflexivity. Qed.

Lemma length_append (a b : string) :
  String.length (a +:+ b) = String.length a + String.length b.
Proof.
  induction a as [|c a IH]; [reflexivity|].
  rewrite append_cons. simpl. by rewrite IH.
Qed.

Lemma rfind_from_none (c : ascii) (s : string) (i last : Z) :
  PyStr.has_char c s = false → PyStr.rfind_from c s i last = last.
Proof.
  revert i last. induction s as [|a s IH]; intros i last; simpl; [done|].
  destruct (Ascii.eqb a c); simpl; [discriminate|]. apply IH.
Qed.

Lemma rfind_from_app_none (c : ascii) (a b : string) (i last : Z) :
  PyStr.has_char c b = false →
  PyStr.rfind_from c (a +:+ b) i last = PyStr.rfind_from c a i last.
Proof.
  intros Hb. revert i last. induction a as [|x a IH]; intros i last.
  - by apply rfind_from_none.
  - rewrite append_cons. simpl. apply IH.
Qed.

Lemma rfind_from_app_last (c : ascii) (a e : string) (i last : Z) :
  PyStr.has_char c e = false →
  PyStr.rfind_from c (a +:+ String c e) i last
    = (i + Z.of_nat (String.length a))%Z.
Proof.
  intros He. revert i last. induction a as [|x a IH]; intros i last.
  - change (EmptyString +:+ String c e) with (String c e). simpl.
    rewrite Ascii.eqb_refl, rfind_from_none by done. lia.
  - rewrite append_cons. simpl PyStr.rfind_from. rewrite IH.
    simpl String.length. lia.
Qed.

Lemma substring_app_l (a b : string) :
  String.substring 0 (String.length a) (a +:+ b) = a.
Proof.
  induction a as [|c a IH]; [by destruct b|].
  rewrite append_cons. simpl. by rewrite IH.
Qed.

Lemma substring_all (b : string) :
  String.substring 0 (String.length b) b = b.
Proof. induction b as [|c b IH]; [done|]. simpl. by rewrite IH. Qed.

Lemma substring_app_r (a b : string) :
  String.substring (String.length a) (String.length b) (a +:+ b) = b.
Proof.
  induction a as [|c a IH]; [apply substring_all|].
  rewrite append_cons. simpl. exact IH.
Qed.

Lemma get_app_length (a : string) (x : ascii) (b : string) :
  String.get (String.length a) (a +:+ String x b) = Some x.
Proof. induction a as [|c a IH]; [done|]. rewrite append_cons. exact IH. Qed.

(** The loop of [splitext] stops at the first character that is not a
    dot. *)
Lemma splitext_scan_finds (p : string) (dotIndex : Z) (x : ascii) (m : nat) :
  ∀ (filenameIndex : Z) (fuel : nat),
    (0 ≤ filenameIndex)%Z →
    (filenameIndex + Z.of_nat m < dotIndex)%Z →
    String.get (Z.to_nat (filenameIndex + Z.of_nat m)) p = Some x →
    x ≠ "."%char →
    m < fuel →
    OsPath.splitext_scan p filenameIndex dotIndex fuel
      = Some (PyStr.slice_to p dotIndex, PyStr.slice_from p dotIndex).
Proof.
  induction m as [|m IH]; intros i fuel Hi Hlt Hget Hx Hfuel;
    (destruct fuel as [|fuel]; [lia|]); simpl.
  - rewrite Z.add_0_r in Hget, Hlt.
    destruct (Z.ltb_spec i dotIndex); [|lia]. rewrite Hget.
    destruct x as [[] [] [] [] [] [] [] []]; try done.
  - destruct (Z.ltb_spec i dotIndex); [|lia].
    assert (OsPath.splitext_scan p (i + 1) dotIndex fuel
            = Some (PyStr.slice_to p dotIndex, PyStr.slice_from p dotIndex))
      as Hnext.
    { apply IH; try lia; try done.
      by replace (i + 1 + Z.of_nat m)%Z with (i + Z.of_nat (S m))%Z by lia. }
    destruct (String.get (Z.to_nat i) p) as [y|]; [|done].
    destruct y as [[] [] [] [] [] [] [] []]; try done.
Qed.

(** What [splitext] cuts off a path that ends in [.e], where [e] has no
    dot and no slash and the character before the dot is neither. *)
Lemma splitext_extension (stem : string) (x : ascii) (e : string) :
  x ≠ "."%char → x ≠ "/"%char →
  PyStr.has_char "." e = false → PyStr.has_char "/" e = false →
  OsPath.splitext (stem +:+ String x ("." +:+ e))
    = (stem +:+ String x EmptyString, "." +:+ e).
Proof.
  intros Hxdot Hxsep Hedot Hesep.
  set (a := stem +:+ String x EmptyString).
  assert (stem +:+ String x ("." +:+ e) = a +:+ String "." e) as Hp.
  { unfold a. by rewrite append_assoc. }
  assert (PyStr.rfind "." (a +:+ String "." e)
          = Z.of_nat (String.length a)) as Hdot.
  { unfold PyStr.rfind. rewrite rfind_from_app_last by done. lia. }
  assert (PyStr.rfind "/" (stem +:+ String x ("." +:+ e))
          = PyStr.rfind "/" stem) as Hsep.
  { unfold PyStr.rfind. apply rfind_from_app_none.
    change ("." +:+ e) with (String "." e). simpl. rewrite Hesep.
    apply Ascii.eqb_neq in Hxsep. by rewrite Hxsep. }
  pose proof (rfind_bound "/" stem) as Hbound.
  assert (String.length a = S (String.length stem)) as Hlen.
  { unfold a. rewrite length_append. simpl. lia. }
  unfold OsPath.splitext. rewrite Hsep. rewrite Hp, Hdot.
  destruct (Z.gtb_spec (Z.of_nat (String.length a)) (PyStr.rfind "/" stem));
    [|lia].
  rewrite (splitext_scan_finds (a +:+ String "." e) _ x
             (Z.to_nat (Z.of_nat (String.length stem)
                        - (PyStr.rfind "/" stem + 1)))).
  - unfold PyStr.slice_to, PyStr.slice_from. rewrite Nat2Z.id.
    rewrite substring_app_l. f_equal.
    rewrite length_append.
    replace (String.length a + String.length (String "." e) - String.length a)
      with (String.length (String "." e)) by lia.
    apply substring_app_r.
  - lia.
  - lia.
  - replace (Z.to_nat _) with (String.length stem) by lia.
    rewrite <- Hp. apply get_app_length.
  - done.
  - rewrite length_append. simpl. lia.
Qed.

(** The case of the extension does not matter, on real paths: for an
    existing file [....e] whose last part [e] (free of dots and slashes,
    after a character that is neither) reads [yaml], [yml] or [json] in
    any mix of cases, the loader uses that parser; for any other [e] it
    raises the unsupported-format error naming [.] and [e] in lower
    case. *)
Theorem load_config_extension_any_case (W : World) (stem : string) (x : ascii)
    (e : string) (s : DB W) :
  let config_path := stem +:+ String x ("." +:+ e) in
  x ≠ "."%char → x ≠ "/"%char →
  PyStr.has_char "." e = false → PyStr.has_char "/" e = false →
  path_exists W config_path = true →
  (PyStr.lower e = "yaml" ∨ PyStr.lower e = "yml" →
   load_config W config_path s =
     (match open_read W config_path with
      | inr file => of_lib (yaml_safe_load W file)
      | inl what => Raise (LibraryError what)
      end, s, [EOpen config_path])) ∧
  (PyStr.lower e = "json" →
   load_config W config_path s =
     (match open_read W config_path with
      | inr file => of_lib (json_load W file)
      | inl what => Raise (LibraryError what)
      end, s, [EOpen config_path])) ∧
  (PyStr.lower e ≠ "yaml" → PyStr.lower e ≠ "yml" → PyStr.lower e ≠ "json" →
   load_config W config_path s =
     (Raise (ValueError ("Unsupported config file format: ." +:+ PyStr.lower e
                         +:+ ". Use .yaml, .yml, or .json")), s, [])).
Proof.
  intros config_path Hxdot Hxsep Hedot Hesep Hexists.
  assert (file_ext_of config_path = "." +:+ PyStr.lower e) as Hext.
  { unfold file_ext_of, config_path.
    by rewrite (splitext_extension stem x e Hxdot Hxsep Hedot Hesep). }
  split; [|split].
  - intros Hyaml. apply load_config_yaml; [done|]. rewrite Hext.
    destruct Hyaml as [-> | ->]; auto.
  - intros Hjson. apply load_config_json; [done|]. by rewrite Hext, Hjson.
  - intros Hyaml Hyml Hjson. unfold load_config. rewrite Hexists, Hext. simpl.
    apply String.eqb_neq in Hyaml, Hyml, Hjson.
    change (EmptyString +:+ PyStr.lower e) with (PyStr.lower e).
    rewrite Hyaml, Hyml, Hjson. reflexivity.
Qed.

Lemma load_config_extension_any_case_witness :
  let W := Sample.world Sample.three_rows [] in
  load_config W "conf/Trino.JSON" [] =
    (Ok Sample.config, [], [EOpen "conf/Trino.JSON"]).
Proof.
  intros W.
  refine (proj1 (proj2 (load_config_extension_any_case W "conf/Trin" "o"
                          "JSON" [] _ _ _ _ _)) _);
    try reflexivity; discriminate.
Defined.

(** A hidden file has no extension: for a file whose name is a dot
    followed by dot-free text, at the top or right after a slash (such as
    [.yaml] or [conf/.json]), [splitext] cuts nothing off, and the loader
    raises the unsupported-format error with an empty extension. *)
Theorem hidden_file_is_unsupported (W : World) (dir e : string) (s : DB W) :
  let config_path := dir +:+ "." +:+ e in
  (dir = EmptyString ∨ ∃ above, dir = above +:+ "/") →
  PyStr.has_char "." e = false → PyStr.has_char "/" e = false →
  path_exists W config_path = true →
  OsPath.splitext config_path = (config_path, EmptyString) ∧
  load_config W config_path s =
    (Raise (ValueError
       "Unsupported config file format: . Use .yaml, .yml, or .json"), s, []).
Proof.
  intros config_path Hdir Hedot Hesep Hexists.
  assert (OsPath.splitext config_path = (config_path, EmptyString)) as Hsplit.
  { unfold OsPath.splitext, config_path.
    change ("." +:+ e) with (String "." e).
    assert (PyStr.rfind "." (dir +:+ String "." e)
            = Z.of_nat (String.length dir)) as ->.
    { unfold PyStr.rfind. rewrite rfind_from_app_last by done. lia. }
    assert ((PyStr.rfind "/" (dir +:+ String "." e) + 1)%Z
            = Z.of_nat (String.length dir)) as Hsep.
    { destruct Hdir as [-> | [above ->]].
      - change (EmptyString +:+ String "." e) with (String "." e).
        unfold PyStr.rfind. rewrite rfind_from_none; [done|].
        simpl. by rewrite Hesep.
      - rewrite append_assoc.
        change ("/" +:+ String "." e) with (String "/" (String "." e)).
        unfold PyStr.rfind. rewrite rfind_from_app_last.
        + rewrite length_append. simpl. lia.
        + simpl. by rewrite Hesep. }
    destruct (_ >? _)%Z; [|done]. rewrite Hsep.
    destruct (String.length (dir +:+ String "." e)) as [|fuel]; [done|].
    simpl. by rewrite Z.ltb_irrefl. }
  split; [done|].
  unfold load_config, file_ext_of. rewrite Hexists, Hsplit. reflexivity.
Qed.

Lemma hidden_file_is_unsupported_witness :
  let W := Sample.config_world Sample.config Sample.three_rows [] in
  OsPath.splitext "conf/.yaml" = ("conf/.yaml", EmptyString) ∧
  load_config W "conf/.yaml" [] =
    (Raise (ValueError
       "Unsupported config file format: . Use .yaml, .yml, or .json"), [], []).
Proof.
  intros W. apply (hidden_file_is_unsupported W "conf/" "yaml" []).
  - right. by exists "conf".
  - reflexivity.
  - reflexivity.
  - reflexivity.
Defined.

(** ** The date heuristic and the placeholders *)

Lemma startswith_spec (p s : string) :
  PyStr.startswith p s = true ↔ ∃ b, s = p +:+ b.
Proof.
  revert s. induction p as [|a p IH]; intros s.
  - split; [|by destruct s]. intros _. by exists s.
  - destruct s as [|c s]; simpl.
    + split; [discriminate|]. by intros [b [=]].
    + rewrite andb_true_iff, IH. split.
      * intros [Hac [b ->]]. apply Ascii.eqb_eq in Hac as ->. by exists b.
      * intros [b Hb]. rewrite append_cons in Hb. injection Hb as -> ->.
        split; [apply Ascii.eqb_refl|by exists b].
Qed.

Lemma contains_spec (sub s : string) :
  PyStr.contains sub s = true ↔ ∃ a b, s = a +:+ sub +:+ b.
Proof.
  induction s as [|c s IH].
  - simpl. rewrite orb_false_r, startswith_spec. split.
    + intros [b Hb]. by exists EmptyString, b.
    + intros (a & b & Hab). destruct a; [by exists b|discriminate].
  - simpl. rewrite orb_true_iff, startswith_spec, IH. split.
    + intros [[b Hb]|(a & b & ->)].
      * by exists EmptyString, b.
      * by exists (String c a), b.
    + intros ([|c' a] & b & Hab).
      * left. by exists b.
      * right. rewrite append_cons in Hab. injection Hab as -> ->.
        by exists a, b.
Qed.

Lemma lower_app (a b : string) :
  PyStr.lower (a +:+ b) = PyStr.lower a +:+ PyStr.lower b.
Proof.
  induction a as [|c a IH]; [done|].
  rewrite append_cons. simpl. by rewrite IH.
Qed.

Lemma lower_split (s x y : string) :
  PyStr.lower s = x +:+ y →
  ∃ s1 s2, s = s1 +:+ s2 ∧ PyStr.lower s1 = x ∧ PyStr.lower s2 = y.
Proof.
  revert s. induction x as [|c x IH]; intros s Hs.
  - by exists EmptyString, s.
  - destruct s as [|d s]; [discriminate|].
    rewrite append_cons in Hs. simpl in Hs. injection Hs as Hd Hs.
    destruct (IH s Hs) as (s1 & s2 & -> & <- & <-).
    exists (String d s1), s2. simpl. by rewrite Hd.
Qed.

(** The date heuristic of line 85 holds of exactly the column names that
    have, somewhere inside, four characters that read [date] in any mix
    of cases: [trade_date] and [DateOpened], and also [updated_by] and
    [candidates]. *)
Theorem date_name_iff_date_inside (col_name : string) :
  is_date_name col_name = true ↔
  ∃ before inside after,
    col_name = before +:+ inside +:+ after ∧ PyStr.lower inside = "date".
Proof.
  unfold is_date_name. rewrite contains_spec. split.
  - intros (a & b & Hlower).
    destruct (lower_split col_name a _ Hlower) as (before & rest & -> & _ & Hrest).
    destruct (lower_split rest "date" b Hrest) as (inside & after & -> & Hin & _).
    by exists before, inside, after.
  - intros (before & inside & after & -> & Hinside).
    exists (PyStr.lower before), (PyStr.lower after).
    by rewrite !lower_app, Hinside.
Qed.

Lemma count_char_app (c : ascii) (a b : string) :
  Spec.count_char c (a +:+ b) = Spec.count_char c a + Spec.count_char c b.
Proof.
  induction a as [|x a IH]; [done|].
  rewrite append_cons. simpl. rewrite IH. lia.
Qed.

Lemma placeholder_str_count (table_columns : list string) :
  Spec.count_char "?" (placeholder_str table_columns) = length table_columns.
Proof.
  unfold placeholder_str.
  induction table_columns as [|col [|col' rest] IH]; [done|done|].
  change (Spec.count_char "?"
            ("?" +:+ ", " +:+
             PyStr.join ", " (map (λ _ : string, "?") (col' :: rest)))
          = S (length (col' :: rest))).
  rewrite !count_char_app, IH. reflexivity.
Qed.

Lemma table_column_str_count (table_columns : list string) :
  Forall (λ col, Spec.count_char "?" col = 0) table_columns →
  Spec.count_char "?" (table_column_str table_columns) = 0.
Proof.
  unfold table_column_str.
  induction table_columns as [|col [|col' rest] IH]; intros Hcols; [done| |].
  - apply Forall_cons in Hcols as [Hcol _]. simpl.
    rewrite !count_char_app, Hcol. reflexivity.
  - apply Forall_cons in Hcols as [Hcol Hrest].
    change (Spec.count_char "?"
              ((dquote +:+ col +:+ dquote) +:+ ", " +:+
               PyStr.join ", "
                 (map (λ c, dquote +:+ c +:+ dquote) (col' :: rest))) = 0).
    rewrite !count_char_app, Hcol, (IH Hrest). reflexivity.
Qed.

(** When neither the table name nor a column name holds a question mark,
    the INSERT sent for a row has exactly as many [?] placeholders as
    values bound to it. *)
Theorem placeholders_match_values (table_name : string)
    (table_columns : list string) (row : Series) :
  Spec.count_char "?" table_name = 0 →
  Forall (λ col, Spec.count_char "?" col = 0) table_columns →
  ∃ query values,
    insert_event table_name table_columns row
      = ECall (Execute query (Some values)) ∧
    Spec.count_char "?" query = length values ∧
    length values = length table_columns.
Proof.
  intros Htable Hcols. eexists _, _. split; [reflexivity|].
  rewrite length_map, length_seq. split; [|done].
  unfold insert_query.
  rewrite !count_char_app, Htable, placeholder_str_count,
    (table_column_str_count _ Hcols).
  unfold PyStr.nl. simpl. lia.
Qed.

Lemma placeholders_match_values_witness :
  ∃ query values,
    insert_event "s.t" ["trade_date"; "qty"]
      [(LPos 0, PStr "2023-01-15"); (LPos 1, PInt 5)]
      = ECall (Execute query (Some values)) ∧
    Spec.count_char "?" query = length values ∧
    length values = 2.
Proof.
  apply (placeholders_match_values "s.t" ["trade_date"; "qty"]).
  - reflexivity.
  - repeat constructor.
Defined.

(** ** A CSV with a header and no rows *)

(** A frame without rows sends no INSERT, and the run still commits,
    closes the cursor and the connection, and reports 0 rows. *)
Theorem empty_frame_still_commits (W : World) (csv_path table_name : string)
    (table_columns : list string) (df : DataFrame) (s : DB W) :
  df_nrows df = 0 →
  (∀ c, c ≠ FetchAll → accepts W c) →
  ∃ s' warning,
    (warning = [] ∨
     warning = [EPrint (TruncationWarning (length table_columns)
                          (Pandas.ncols df))]) ∧
    load_rows W csv_path table_name table_columns df s =
      (Ok (), s',
       warning ++
       [ECall Commit; ECall CursorClose; ECall ConnClose;
        EPrint (InsertedSuccessfully csv_path table_name);
        EPrint (InsertedCount 0
                  (min (length table_columns) (Pandas.ncols df)))]).
Proof.
  intros Hempty Hacc.
  destruct (load_rows_accepted W csv_path table_name table_columns df s Hacc)
    as (bound & warning & df' & s' & Hbind & Hconv & Hrun).
  destruct (bind_columns_run W table_columns df s)
    as (bound0 & warning0 & Hbind0 & Hmin & Hcut & Hfull).
  rewrite Hbind in Hbind0. injection Hbind0 as <- <-.
  destruct (convert_date_columns_run W bound 0 (Pandas.set_columns_range df) s
              (set_columns_range_positional df))
    as (df0 & Hconv0 & Hnrows & _).
  rewrite Hconv in Hconv0. injection Hconv0 as <-. simpl in Hnrows.
  exists s', warning. split.
  { destruct (decide (Pandas.ncols df < length table_columns)) as [Hlt|Hge].
    - right. by destruct (Hcut Hlt).
    - left. apply Hfull. lia. }
  rewrite Hrun. unfold Pandas.iterrows. rewrite Hnrows, Hempty, Hmin.
  reflexivity.
Qed.

Lemma empty_frame_still_commits_witness :
  let W := Sample.world Sample.three_rows [] in
  let df := {| df_nrows := 0;
               df_columns := [(LName "x", []); (LName "y", [])] |} in
  ∃ s' warning,
    (warning = [] ∨ warning = [EPrint (TruncationWarning 3 2)]) ∧
    load_rows W "purchases.csv" "t" ["a"; "b"; "c"] df [] =
      (Ok (), s',
       warning ++
       [ECall Commit; ECall CursorClose; ECall ConnClose;
        EPrint (InsertedSuccessfully "purchases.csv" "t");
        EPrint (InsertedCount 0 2)]).
Proof.
  intros W df.
  apply (empty_frame_still_commits W "purchases.csv" "t" ["a"; "b"; "c"] df []).
  - reflexivity.
  - intros c _. apply sample_accepts.
Defined.

(** * What the rows carry *)

Lemma bound_cell_row_at (W : World) (df : DataFrame) (k j : nat) (l : label)
    (column : list pyobj) :
  df_columns df !! j = Some (l, column) →
  bound_cell (Pandas.row_at W df k) j = values_cast W df (nth k column nan).
Proof.
  intros Hj. unfold bound_cell, Pandas.row_at.
  rewrite list_lookup_fmap, Hj. reflexivity.
Qed.

Lemma iterrows_lookup (W : World) (df : DataFrame) (k : nat) (row : Series) :
  Pandas.iterrows W df !! k = Some row ↔
  k < df_nrows df ∧ row = Pandas.row_at W df k.
Proof.
  unfold Pandas.iterrows. rewrite list_lookup_fmap. split.
  - destruct (seq 0 (df_nrows df) !! k) as [k'|] eqn:Hk; simpl; [|discriminate].
    apply lookup_seq in Hk as [-> Hk]. by intros [= <-].
  - intros [Hk ->]. by rewrite lookup_seq_lt.
Qed.

(** Lines 75-90 on a frame: the bound columns, and the frame the rows are
    read from, column by column. *)
Lemma bound_frame (W : World) (table_columns : list string) (df : DataFrame)
    (s : DB W) :
  ∃ bound warning df',
    bind_columns W table_columns df s = (Ok bound, s, warning) ∧
    bound = take (Pandas.ncols df) table_columns ∧
    convert_date_columns W 0 bound (Pandas.set_columns_range df) s
      = (Ok df', s, []) ∧
    df_nrows df' = df_nrows df ∧
    Pandas.ncols df' = Pandas.ncols df ∧
    positional 0 (df_columns df') ∧
    ∀ j l column,
      df_columns df !! j = Some (l, column) →
      df_columns df' !! j
        = Some (LPos j, coerced W (table_columns !! j) column).
Proof.
  destruct (bind_columns_run W table_columns df s)
    as (bound & warning & Hbind & _).
  pose proof (bind_columns_take W table_columns df s bound warning Hbind)
    as Htake.
  destruct (convert_date_columns_run W bound 0 (Pandas.set_columns_range df) s
              (set_columns_range_positional df))
    as (df' & Hconv & Hnrows & Hlen & Hpos & Hcols).
  exists bound, warning, df'. split; [done|]. split; [done|]. split; [done|].
  split; [done|]. split.
  { unfold Pandas.ncols. rewrite Hlen. simpl. by rewrite length_imap. }
  split; [done|]. intros j l column Hj.
  pose proof (Hcols j) as Hc. rewrite set_columns_range_lookup, Hj in Hc.
  simpl in Hc.
  destruct (df_columns df' !! j) as [[l' c']|] eqn:Hj'; [|discriminate].
  simpl in Hc. injection Hc as ->.
  pose proof (Hpos j _ Hj') as Hl. simpl in Hl. subst l'.
  rewrite Nat.sub_0_r, Htake, lookup_take_lt; [done|].
  apply lookup_lt_Some in Hj. exact Hj.
Qed.

(** Every INSERT in the log of lines 75-115 was built by line 100 from one
    row of the frame that lines 75-90 leave. *)
Lemma load_rows_insert_values (W : World) (csv_path table_name : string)
    (table_columns : list string) (df : DataFrame) (s : DB W)
    (query : string) (values : list pyobj) :
  ECall (Execute query (Some values))
    ∈ (load_rows W csv_path table_name table_columns df s).2 →
  ∃ bound warning df' k,
    bind_columns W table_columns df s = (Ok bound, s, warning) ∧
    convert_date_columns W 0 bound (Pandas.set_columns_range df) s
      = (Ok df', s, []) ∧
    k < df_nrows df ∧
    query = insert_query table_name bound ∧
    values = map (bound_cell (Pandas.row_at W df' k)) (seq 0 (length bound)).
Proof.
  intros Hin.
  destruct (load_rows_outcomes_frame W csv_path table_name table_columns df s)
    as (bound & warning & df' & Hbind & Hconv & Hmin & Hwarning & Hlen & Hcases).
  simpl in Hlen, Hcases.
  assert (df_nrows df' = df_nrows df) as Hnrows.
  { unfold Pandas.iterrows in Hlen. by rewrite length_map, length_seq in Hlen. }
  assert (∀ rows', rows' ⊆ Pandas.iterrows W df' →
            ECall (Execute query (Some values))
              ∈ warning ++ map (insert_event table_name bound) rows' →
            ∃ row, row ∈ Pandas.iterrows W df' ∧
                   query = insert_query table_name bound ∧
                   values = map (bound_cell row) (seq 0 (length bound)))
    as Hfront.
  { intros rows' Hsub H. apply elem_of_app in H as [H|H].
    - destruct Hwarning as [-> | ->]; revert H; in_listed.
    - apply elem_of_insert_events in H as (row & Hrow & [= -> ->]).
      exists row. split; [by apply Hsub|done]. }
  assert (∃ row, row ∈ Pandas.iterrows W df' ∧
                 query = insert_query table_name bound ∧
                 values = map (bound_cell row) (seq 0 (length bound)))
    as (row & Hrow & -> & ->).
  { destruct Hcases as [[_ Hlog]|[(what & sent & _ & _ & Hlog)|(what & closing & _ & Hlog & Hclosing)]];
      rewrite Hlog in Hin.
    - rewrite app_assoc in Hin. apply elem_of_app in Hin as [H|H];
        [by apply (Hfront (Pandas.iterrows W df'))|].
      revert H. unfold closing_events. in_listed.
    - apply (Hfront (take sent (Pandas.iterrows W df'))); [|done].
      intros x Hx. apply elem_of_take in Hx as (i & Hi & _).
      by eapply list_elem_of_lookup_2.
    - rewrite app_assoc in Hin. apply elem_of_app in Hin as [H|H];
        [by apply (Hfront (Pandas.iterrows W df'))|].
      destruct Hclosing as [-> | [-> | ->]]; revert H; in_listed. }
  apply list_elem_of_lookup in Hrow as [k Hk].
  apply iterrows_lookup in Hk as [Hk ->].
  exists bound, warning, df', k. repeat split; try done. lia.
Qed.



(** C4: lines 84-90 raise nothing and send nothing, whatever the date
    conversion does, and keep the frame's rows and columns.  Under a table
    column whose lower-cased name contains [date], the data column at the
    same position is handed whole to the conversion: if it succeeds, the
    column then holds what it returned, a date for each cell it could read
    and [NaT] for each blank one, and no cell of another kind; if it
    raises, the column is as it was.  Under any other table column, and
    past the last table column, the data column is as it was.  The rows
    are read after the loop: every INSERT of the run binds, at each
    position, the cell of one row of the column as the loop left it. *)
Theorem convert_date_columns_best_effort (W : World)
    (table_columns : list string) (df0 : DataFrame) (s : DB W) :
  ∃ bound warning df',
    bind_columns W table_columns df0 s = (Ok bound, s, warning) ∧
    convert_date_columns W 0 bound (Pandas.set_columns_range df0) s
      = (Ok df', s, []) ∧
    df_nrows df' = df_nrows df0 ∧
    Pandas.ncols df' = Pandas.ncols df0 ∧
    (∀ j l column,
       df_columns df0 !! j = Some (l, column) →
       (∀ col_name dates,
          table_columns !! j = Some col_name →
          PyStr.contains "date" (PyStr.lower col_name) = true →
          to_datetime_date W column = inr dates →
          ∃ cells,
            Pandas.getitem df' j = Ok cells ∧
            cells = map date_cell dates ∧
            Forall date_typed cells) ∧
       (∀ col_name what,
          table_columns !! j = Some col_name →
          PyStr.contains "date" (PyStr.lower col_name) = true →
          to_datetime_date W column = inl what →
          Pandas.getitem df' j = Ok column) ∧
       (∀ col_name,
          table_columns !! j = Some col_name →
          PyStr.contains "date" (PyStr.lower col_name) = false →
          Pandas.getitem df' j = Ok column) ∧
       (table_columns !! j = None → Pandas.getitem df' j = Ok column)) ∧
    (∀ csv_path table_name query values,
       ECall (Execute query (Some values))
         ∈ (load_rows W csv_path table_name table_columns df0 s).2 →
       ∃ k,
         k < df_nrows df0 ∧
         length values = length bound ∧
         ∀ j cells,
           j < length bound →
           Pandas.getitem df' j = Ok cells →
           values !! j = Some (values_cast W df' (nth k cells nan))).
Proof.
  destruct (bound_frame W table_columns df0 s)
    as (bound & warning & df' & Hbind & Htake & Hconv & Hnrows & Hncols
        & Hpos & Hcols).
  exists bound, warning, df'.
  split; [done|]. split; [done|]. split; [done|]. split; [done|].
  assert (∀ j c, df_columns df' !! j = Some c →
                 Pandas.getitem df' j = Ok c.2) as Hget.
  { intros j c Hj. unfold Pandas.getitem.
    pose proof (lookup_label_positional (df_columns df') 0 j Hpos) as Hl.
    simpl in Hl. rewrite Hl, Hj. reflexivity. }
  split.
  - intros j l column Hj.
    rewrite (Hget j _ (Hcols j l column Hj)). simpl.
    unfold coerced, is_date_name. split; [|split; [|split]].
    + intros col_name dates -> -> ->. eexists. split; [reflexivity|].
      split; [reflexivity|].
      apply Forall_forall. intros cell Hcell.
      apply list_elem_of_fmap in Hcell as (d & -> & _). by destruct d.
    + intros col_name what -> -> ->. reflexivity.
    + intros col_name -> ->. reflexivity.
    + intros ->. reflexivity.
  - intros csv_path table_name query values Hin.
    destruct (load_rows_insert_values W csv_path table_name table_columns df0
                s query values Hin)
      as (bound1 & warning1 & df1 & k & Hbind1 & Hconv1 & Hk & _ & ->).
    rewrite Hbind in Hbind1. injection Hbind1 as <- <-.
    rewrite Hconv in Hconv1. injection Hconv1 as <-.
    exists k. split; [done|]. split; [by rewrite length_map, length_seq|].
    intros j cells Hj Hcells.
    assert (j < length (df_columns df')) as Hjdf.
    { fold (Pandas.ncols df'). rewrite Hncols.
      rewrite Htake, length_take in Hj. lia. }
    destruct (lookup_lt_is_Some_2 _ _ Hjdf) as [[l c] Hc].
    rewrite (Hget j _ Hc) in Hcells. simpl in Hcells. injection Hcells as ->.
    rewrite list_lookup_fmap, lookup_seq_lt by done. simpl. f_equal.
    by eapply bound_cell_row_at.
Qed.

Lemma convert_date_columns_best_effort_witness :
  let W := Sample.world Sample.trades [] in
  let d1 := {| year := 2023; month := 1; day := 15 |} in
  let d2 := {| year := 2024; month := 2; day := 29 |} in
  ∃ df',
    convert_date_columns W 0 ["trade_date"; "Settle_DATE"; "qty"]
      (Pandas.set_columns_range Sample.trades) [] = (Ok df', [], []) ∧
    (∃ cells,
       Pandas.getitem df' 0 = Ok cells ∧
       cells = [PDate d1; PDate d2] ∧
       Forall date_typed cells) ∧
    Pandas.getitem df' 1 = Ok [PStr "2023-01-16"; PStr "not-a-date"] ∧
    Pandas.getitem df' 2 = Ok [PInt 5; PInt 7] ∧
    ∃ k,
      k < 2 ∧
      ∀ j cells,
        j < 3 →
        Pandas.getitem df' j = Ok cells →
        [PDate d1; PStr "2023-01-16"; PInt 5] !! j
          = Some (values_cast W df' (nth k cells nan)).
Proof.
  intros W d1 d2.
  destruct (convert_date_columns_best_effort W
              ["trade_date"; "Settle_DATE"; "qty"] Sample.trades [])
    as (bound & warning & df' & Hbind & Hrun & _ & _ & Hcols & Hbound).
  injection Hbind as <- <-.
  exists df'. split; [exact Hrun|]. split; [|split; [|split]].
  - destruct (Hcols 0 _ _ eq_refl) as (Hdates & _).
    exact (Hdates "trade_date" [Some d1; Some d2] eq_refl eq_refl eq_refl).
  - destruct (Hcols 1 _ _ eq_refl) as (_ & Hraised & _).
    exact (Hraised "Settle_DATE" "DateParseError" eq_refl eq_refl eq_refl).
  - destruct (Hcols 2 _ _ eq_refl) as (_ & _ & Hother & _).
    exact (Hother "qty" eq_refl eq_refl).
  - destruct (Hbound "purchases.csv" "t"
                (insert_query "t" ["trade_date"; "Settle_DATE"; "qty"])
                [PDate d1; PStr "2023-01-16"; PInt 5])
      as (k & Hk & _ & Hvalues).
    { apply list_elem_of_here. }
    exists k. split; [exact Hk|]. exact Hvalues.
Defined.

(** A blank cell in a date column does not stop the conversion: the
    column of the frame [blank_date] under [trade_date] becomes a date
    and [NaT], and the second row binds [NaT]. *)
Lemma blank_date_binds_nat :
  let W := Sample.world Sample.blank_date [] in
  (load_rows W "purchases.csv" "t" ["trade_date"; "qty"]
     Sample.blank_date []).2 =
    [ECall (Execute (insert_query "t" ["trade_date"; "qty"])
              (Some [PDate {| year := 2023; month := 1; day := 15 |};
                     PInt 5]));
     ECall (Execute (insert_query "t" ["trade_date"; "qty"])
              (Some [PNaT; PInt 7]));
     ECall Commit; ECall CursorClose; ECall ConnClose;
     EPrint (InsertedSuccessfully "purchases.csv" "t");
     EPrint (InsertedCount 2 2)].
Proof. reflexivity. Qed.



(** ** The run from start to end *)

Lemma insert_events_by_cell (W : World) (table_name : string)
    (table_columns bound : list string) (df df' : DataFrame) :
  df_nrows df' = df_nrows df →
  length bound ≤ Pandas.ncols df →
  (∀ j l column,
     df_columns df !! j = Some (l, column) →
     df_columns df' !! j
       = Some (LPos j, coerced W (table_columns !! j) column)) →
  map (insert_event table_name bound) (Pandas.iterrows W df') =
  map (λ k,
         ECall (Execute (insert_query table_name bound)
                  (Some (map (λ j,
                                values_cast W df'
                                  (nth k (coerced W (table_columns !! j)
                                            (default [] (snd <$> df_columns df !! j)))
                                     nan))
                           (seq 0 (length bound))))))
    (seq 0 (df_nrows df)).
Proof.
  intros Hnrows Hbound Hcols. unfold Pandas.iterrows.
  rewrite map_map, Hnrows. apply map_ext. intros k. unfold insert_event.
  do 3 f_equal. apply map_ext_in. intros j Hj. apply in_seq in Hj.
  destruct (lookup_lt_is_Some_2 (df_columns df) j) as [[l c] Hc].
  { unfold Pandas.ncols in Hbound. lia. }
  rewrite (bound_cell_row_at W df' k j _ _ (Hcols j l c Hc)), Hc.
  reflexivity.
Qed.

(** With a configuration that loads to a mapping, a readable CSV, a table
    the catalog knows and a database that takes every call, the run
    returns and its log is: the connect, the cursor, the metadata query
    and its fetch, the discovered columns, the warning exactly when there
    are more table columns than data columns, then for each row index of
    the frame in order one INSERT over the first table columns, binding at
    each position the cell of that row in the data column at that
    position (after the conversion of dates, as [iterrows] hands it out),
    then one commit, the two closes and the two closing lines. *)
Theorem run_succeeds (W : World) (csv_path table_name config_path : string)
    (m : gmap string pyobj) (params : conn_params) (df : DataFrame)
    (schema : option string) (table : string) (fetched : list (list string))
    (columns : list string) (s0 s1 : DB W) (log0 : list event) :
  load_config W config_path s0 = (Ok (PDict m), s1, log0) →
  connection_params (default (PDict ∅) (m !! "trino")) = Ok params →
  read_csv W csv_path = inr df →
  parse_table_name table_name = Ok (schema, table) →
  (∀ c, c ≠ FetchAll → accepts W c) →
  answers W (metadata_query schema table) fetched →
  map_result first_cell fetched = Ok columns →
  columns ≠ [] →
  ∃ s' df',
    let bound := take (Pandas.ncols df) columns in
    let warning :=
      if (Pandas.ncols df <? length columns)%nat
      then [EPrint (TruncationWarning (length columns) (Pandas.ncols df))]
      else [] in
    let cell := λ k j,
      values_cast W df'
        (nth k (coerced W (columns !! j)
                  (default [] (snd <$> df_columns df !! j))) nan) in
    df_nrows df' = df_nrows df ∧
    Pandas.ncols df' = Pandas.ncols df ∧
    (∀ j l column,
       df_columns df !! j = Some (l, column) →
       df_columns df' !! j = Some (LPos j, coerced W (columns !! j) column)) ∧
    insert_csv_to_iceberg W csv_path table_name config_path s0 =
      (Ok (), s',
       log0 ++
       [EReadCsv csv_path; ECall (Connect params); ECall Cursor;
        ECall (Execute (metadata_query schema table) None); ECall FetchAll;
        EPrint (UsingTableColumns columns)] ++
       warning ++
       map (λ k, ECall (Execute (insert_query table_name bound)
                          (Some (map (cell k) (seq 0 (length bound))))))
         (seq 0 (df_nrows df)) ++
       closing_events csv_path table_name (df_nrows df) (length bound)).
Proof.
  intros Hload Hparams Hcsv Hparse Hacc Hanswer Hcolumns Hnonempty.
  destruct (Hacc (Connect params) ltac:(discriminate) s1)
    as (r1 & s2 & Hconnect).
  destruct (Hacc Cursor ltac:(discriminate) s2) as (r2 & s3 & Hcursor).
  destruct (Hacc (Execute (metadata_query schema table) None)
              ltac:(discriminate) s3) as (r3 & s4 & Hquery).
  destruct (Hanswer s3 r3 s4 Hquery) as (s5 & Hfetch).
  destruct (load_rows_accepted W csv_path table_name columns df s5 Hacc)
    as (bound & warning & df' & s6 & Hbind & Hconv & Hrows).
  destruct (bound_frame W columns df s5)
    as (bound0 & warning0 & df0 & Hbind0 & Htake & Hconv0 & Hnrows & Hncols
        & _ & Hcols).
  rewrite Hbind in Hbind0. injection Hbind0 as <- <-.
  rewrite Hconv in Hconv0. injection Hconv0 as <-.
  assert (warning =
            if (Pandas.ncols df <? length columns)%nat
            then [EPrint (TruncationWarning (length columns) (Pandas.ncols df))]
            else []) as Hwarning.
  { revert Hbind. unfold bind_columns.
    destruct (Pandas.ncols df <? length columns)%nat; by intros [= _ <-]. }
  exists s6, df'. cbv zeta.
  split; [done|]. split; [done|]. split; [done|].
  rewrite (insert_csv_to_iceberg_run W csv_path table_name config_path m
             params df s0 s1 log0 Hload Hcsv Hparams).
  unfold open_and_load.
  unfold bind at 1, call at 1. rewrite Hconnect.
  unfold bind at 1, call at 1. rewrite Hcursor.
  unfold bind at 1. rewrite get_table_columns_run, Hparse.
  cbv beta iota zeta. rewrite Hquery, Hfetch, Hcolumns.
  destruct columns as [|column columns]; [done|].
  cbv beta iota. unfold bind at 1, emit at 1. rewrite Hrows.
  rewrite <- Htake, <- Hwarning.
  rewrite <- (insert_events_by_cell W table_name (column :: columns) bound
                df df' Hnrows); [reflexivity| |done].
  rewrite Htake, length_take. lia.
Qed.

Lemma run_succeeds_witness :
  let W := Sample.world Sample.trades
             [["trade_date"]; ["settle_date"]; ["qty"]; ["extra"]] in
  let columns := ["trade_date"; "settle_date"; "qty"; "extra"] in
  ∃ s' df',
    let cell := λ k j,
      values_cast W df'
        (nth k (coerced W (columns !! j)
                  (default [] (snd <$> df_columns Sample.trades !! j))) nan) in
    df_nrows df' = 2 ∧
    Pandas.ncols df' = 3 ∧
    (∀ j l column,
       df_columns Sample.trades !! j = Some (l, column) →
       df_columns df' !! j = Some (LPos j, coerced W (columns !! j) column)) ∧
    insert_csv_to_iceberg W "purchases.csv" "s.t" "conf/Trino.JSON" [] =
      (Ok (), s',
       [EOpen "conf/Trino.JSON"] ++
       [EReadCsv "purchases.csv";
        ECall (Connect {| cp_host := PStr "h"; cp_port := PInt 1;
                          cp_user := PStr "u"; cp_catalog := PStr "c";
                          cp_schema := PStr "s" |});
        ECall Cursor;
        ECall (Execute (metadata_query (Some "s") "t") None); ECall FetchAll;
        EPrint (UsingTableColumns columns)] ++
       [EPrint (TruncationWarning 4 3)] ++
       map (λ k, ECall (Execute
                          (insert_query "s.t"
                             ["trade_date"; "settle_date"; "qty"])
                          (Some (map (cell k) (seq 0 3)))))
         (seq 0 2) ++
       closing_events "purchases.csv" "s.t" 2 3).
Proof.
  intros W columns.
  apply (run_succeeds W "purchases.csv" "s.t" "conf/Trino.JSON"
           (<["trino" := PDict Sample.trino_section]> ∅)
           {| cp_host := PStr "h"; cp_port := PInt 1; cp_user := PStr "u";
              cp_catalog := PStr "c"; cp_schema := PStr "s" |}
           Sample.trades (Some "s") "t"
           [["trade_date"]; ["settle_date"]; ["qty"]; ["extra"]]
           columns [] [] [EOpen "conf/Trino.JSON"]); try reflexivity.
  - intros c _. apply sample_accepts.
  - intros s ignored s1 _. exists s1. reflexivity.
  - discriminate.
Defined.
